(** * server-monitor: the time-windowed metric store of [index.ts]

    A shallow embedding of the metric store, its statistics and display
    formatting, and its snapshot persistence, followed by the properties
    the specification states about them.

    JavaScript numbers are IEEE 754 binary64 values.  They are modelled
    with the Standard Library's [spec_float] at precision 53 and maximal
    exponent 1024, whose operations round to nearest, ties to even, as
    the language prescribes.  Timestamps are integral milliseconds
    ([Date.now()]); they are kept in [Z], which is exact for every time
    value the runtime can produce (magnitude below 2^53), and converted
    with [ofZ] where the source mixes them with fractional arithmetic. *)

From Stdlib Require Import ZArith List String Ascii Bool Lia.
From Stdlib Require Import SpecFloat.
Import ListNotations.

#[local] Set Warnings "-register-all".

Local Open Scope string_scope.
Local Open Scope Z_scope.

(** ** Numbers *)

Definition number := spec_float.

Definition prec : Z := 53.
Definition emax : Z := 1024.

Definition add : number -> number -> number := SFadd prec emax.
Definition sub : number -> number -> number := SFsub prec emax.
Definition mul : number -> number -> number := SFmul prec emax.
Definition div : number -> number -> number := SFdiv prec emax.

(** [a < b], [a > b] and [a >= b] of the source; all are false as soon
    as one side is NaN. *)
Definition ltb (a b : number) : bool := SFltb a b.
Definition gtb (a b : number) : bool := SFltb b a.
Definition geb (a b : number) : bool := SFleb b a.
Definition leb (a b : number) : bool := SFleb a b.

(** The number denoted by an integer that binary64 holds exactly. *)
Definition ofZ (z : Z) : number := binary_normalize prec emax z 0 false.

(** The number a decimal literal [n / d] denotes: the nearest binary64
    value, which the correctly rounded quotient of two exact integers
    is. *)
Definition decimal (n : Z) (d : positive) : number := div (ofZ n) (ofZ (Zpos d)).

Definition NaN : number := S754_nan.
Definition pos_zero : number := S754_zero false.
Definition neg_infinity : number := S754_infinity true.

Definition is_finite (x : number) : bool :=
  match x with
  | S754_zero _ | S754_finite _ _ _ => true
  | _ => false
  end.

Definition is_nan (x : number) : bool :=
  match x with S754_nan => true | _ => false end.

Definition is_zero (x : number) : bool :=
  match x with S754_zero _ => true | _ => false end.

(** Structural equality of two numbers (the same sign, mantissa and
    exponent), as opposed to the numeric comparison [SFeqb]. *)
Definition same_number (a b : number) : bool :=
  match a, b with
  | S754_zero s, S754_zero t => Bool.eqb s t
  | S754_infinity s, S754_infinity t => Bool.eqb s t
  | S754_nan, S754_nan => true
  | S754_finite s m e, S754_finite t n f =>
      Bool.eqb s t && Pos.eqb m n && Z.eqb e f
  | _, _ => false
  end.

Definition Math_abs (x : number) : number := SFabs x.

(** [Math.round]: the nearest integer, a tie going towards +infinity;
    the sign of a zero result is the sign of the argument. *)
Definition Math_round (x : number) : number :=
  match x with
  | S754_finite s m e =>
      if 0 <=? e then x
      else
        let den := 2 ^ (- e) in
        let r := (2 * cond_Zopp s (Zpos m) + den) / (2 * den) in
        if r =? 0 then S754_zero s else ofZ r
  | _ => x
  end.

(** [Math.max] of two arguments: NaN wins, then the larger one, and
    +0 is larger than -0. *)
Definition max2 (a b : number) : number :=
  if is_nan a || is_nan b then NaN
  else if ltb a b then b
  else if ltb b a then a
  else match a with S754_zero true => b | _ => a end.

(** [Math.max(...values)]: starts from -Infinity. *)
Definition Math_max (values : list number) : number :=
  fold_left max2 values neg_infinity.

(** ** Number to string

    [Number::toString] of ECMAScript for radix 10: the shortest decimal
    digit string [s] (of [k] digits) and exponent [n] such that
    [s * 10^(n-k)] reads back as the number, laid out in plain or in
    exponent notation according to [n]. *)

Definition digit_char (d : Z) : ascii :=
  ascii_of_nat (48 + Z.to_nat d).

Fixpoint digits_from (fuel : nat) (z : Z) (acc : string) : string :=
  match fuel with
  | O => acc
  | S fuel' =>
      let acc' := String (digit_char (z mod 10)) acc in
      if z <? 10 then acc' else digits_from fuel' (z / 10) acc'
  end.

(** The decimal digits of a non-negative integer. *)
Definition Z_digits (z : Z) : string :=
  digits_from (S (Z.to_nat (Z.log2 z))) z EmptyString.

Fixpoint zeros (n : nat) : string :=
  match n with
  | O => EmptyString
  | S n' => String "0" (zeros n')
  end.

(** The number that the decimal [s * 10^j] denotes. *)
Definition read_decimal (s j : Z) : number :=
  match s with
  | Zpos p =>
      if 0 <=? j then ofZ (s * 10 ^ j)
      else div (S754_finite false p 0)
               (S754_finite false (Z.to_pos (10 ^ (- j))) 0)
  | _ => pos_zero
  end.

(** [10^n <= vn / vd], for positive [vn] and [vd]. *)
Definition ge_pow10 (vn vd n : Z) : bool :=
  if 0 <=? n then 10 ^ n * vd <=? vn else vd <=? vn * 10 ^ (- n).

(** The [n] with [10^(n-1) <= vn / vd < 10^n], searched from a guess. *)
Fixpoint decimal_exponent (fuel : nat) (vn vd n : Z) : Z :=
  match fuel with
  | O => n
  | S fuel' =>
      if ge_pow10 vn vd n then decimal_exponent fuel' vn vd (n + 1)
      else if ge_pow10 vn vd (n - 1) then n
      else decimal_exponent fuel' vn vd (n - 1)
  end.

(** The candidates with [k] digits: the two [k]-digit decimals that
    enclose [vn / vd], the closer one first (the even one on a tie). *)
Definition candidates (vn vd n k : Z) : list (Z * Z) :=
  let j := k - n in
  let num := if 0 <=? j then vn * 10 ^ j else vn in
  let den := if 0 <=? j then vd else vd * 10 ^ (- j) in
  let lo := num / den in
  let r := num mod den in
  let hi := if lo + 1 <? 10 ^ k then (lo + 1, n) else (10 ^ (k - 1), n + 1) in
  match 2 * r ?= den with
  | Lt => [(lo, n); hi]
  | Gt => [hi; (lo, n)]
  | Eq => if Z.even lo then [(lo, n); hi] else [hi; (lo, n)]
  end.

Definition reads_back (x : number) (k : Z) (c : Z * Z) : bool :=
  let '(s, n) := c in
  (10 ^ (k - 1) <=? s) && (s <? 10 ^ k) && same_number (read_decimal s (n - k)) x.

(** The least [k], from [k] upwards, with a candidate that reads back
    as [x]; seventeen digits identify every binary64 value. *)
Fixpoint shortest (fuel : nat) (x : number) (vn vd n k : Z) : option (Z * Z) :=
  match fuel with
  | O => None
  | S fuel' =>
      match find (reads_back x k) (candidates vn vd n k) with
      | Some c => Some c
      | None => shortest fuel' x vn vd n (k + 1)
      end
  end.

(** Layout of the digits [ds] of [s] for the exponent [n]. *)
Definition layout (ds : string) (n : Z) : string :=
  let k := Z.of_nat (String.length ds) in
  if (k <=? n) && (n <=? 21) then
    ds ++ zeros (Z.to_nat (n - k))
  else if (0 <? n) && (n <=? 21) then
    substring 0 (Z.to_nat n) ds ++ "." ++
    substring (Z.to_nat n) (Z.to_nat (k - n)) ds
  else if (-6 <? n) && (n <=? 0) then
    "0." ++ zeros (Z.to_nat (- n)) ++ ds
  else
    let e := n - 1 in
    let sign := if e <? 0 then "-" else "+" in
    let mant :=
      if k =? 1 then ds
      else substring 0 1 ds ++ "." ++ substring 1 (Z.to_nat (k - 1)) ds in
    mant ++ "e" ++ sign ++ Z_digits (Z.abs e).

Definition positive_toString (m : positive) (e : Z) : string :=
  let vn := if 0 <=? e then Zpos m * 2 ^ e else Zpos m in
  let vd := if 0 <=? e then 1 else 2 ^ (- e) in
  let guess := ((Z.log2 (Zpos m) + 1 + e) * 30103) / 100000 in
  let n := decimal_exponent 8 vn vd guess in
  match shortest 17 (S754_finite false m e) vn vd n 1 with
  | Some (s, n') => layout (Z_digits s) n'
  | None => "NaN"
  end.

Definition Number_toString (x : number) : string :=
  match x with
  | S754_nan => "NaN"
  | S754_zero _ => "0"
  | S754_infinity s => if s then "-Infinity" else "Infinity"
  | S754_finite s m e =>
      (if s then "-" else "") ++ positive_toString m e
  end.

(** ** Data model *)

(** [MetricData]: one sample. *)
Record MetricData := { timestamp : Z; value : number }.

(** [StoreType]: the three series and the last computed growth rate. *)
Record StoreType := {
  cpu : list MetricData;
  ram : list MetricData;
  disk : list MetricData;
  diskGrowth : number
}.

Definition INTERVAL : Z := 60 * 1000.
Definition RETENTION : Z := 60 * 60 * 1000.

(** The initial value of the variable [store]. *)
Definition default_store : StoreType :=
  {| cpu := []; ram := []; disk := []; diskGrowth := pos_zero |}.

Definition set_cpu (s : StoreType) (l : list MetricData) : StoreType :=
  {| cpu := l; ram := ram s; disk := disk s; diskGrowth := diskGrowth s |}.
Definition set_ram (s : StoreType) (l : list MetricData) : StoreType :=
  {| cpu := cpu s; ram := l; disk := disk s; diskGrowth := diskGrowth s |}.
Definition set_disk (s : StoreType) (l : list MetricData) : StoreType :=
  {| cpu := cpu s; ram := ram s; disk := l; diskGrowth := diskGrowth s |}.
Definition set_diskGrowth (s : StoreType) (g : number) : StoreType :=
  {| cpu := cpu s; ram := ram s; disk := disk s; diskGrowth := g |}.

(** The own keys of the store object, in the order [Object.keys] lists
    them. *)
Inductive store_key := key_cpu | key_ram | key_disk | key_diskGrowth.

Definition Object_keys_store : list store_key :=
  [key_cpu; key_ram; key_disk; key_diskGrowth].

(** ** The store as state

    The program keeps the store in one module-level variable; the
    functions that read or write it are computations over that state. *)

Definition State (A : Type) : Type := StoreType -> A * StoreType.

Definition ret {A : Type} (a : A) : State A := fun s => (a, s).

Definition bind {A B : Type} (c : State A) (k : A -> State B) : State B :=
  fun s => let '(a, s') := c s in k a s'.

Definition gets {A : Type} (f : StoreType -> A) : State A := fun s => (f s, s).

Definition modify (f : StoreType -> StoreType) : State unit := fun s => (tt, f s).

Notation "x <- c1 ;; c2" := (bind c1 (fun x => c2))
  (at level 61, c1 at next level, right associativity).
Notation "c1 ;; c2" := (bind c1 (fun _ => c2))
  (at level 61, right associativity).

Fixpoint forEach {A : Type} (l : list A) (body : A -> State unit) : State unit :=
  match l with
  | [] => ret tt
  | a :: l' => body a ;; forEach l' body
  end.

(** ** Rounding and display *)

Definition roundRawNum (n : number) : number :=
  div (Math_round (mul n (ofZ 10))) (ofZ 10).

Definition roundInt (n : number) : number := Math_round n.

Definition formatIntWithPercent (n : number) : string :=
  Number_toString (roundInt n) ++ "%".

Definition formatGrowthGB (n : number) : string :=
  if ltb (Math_abs n) (decimal 5 100) then "±0 GB"
  else
    let '(prefix, n') :=
      if gtb n pos_zero then ("+ ", n) else ("- ", Math_abs n) in
    prefix ++ Number_toString (roundRawNum n') ++ " GB".

(** ** Aggregates shared by [update] and [getStats] *)

Definition values_of (series : list MetricData) : list number :=
  map value series.

(** [values.length ? Math.max(...values) : 0] *)
Definition max_or_zero (values : list number) : number :=
  match values with
  | [] => pos_zero
  | _ => Math_max values
  end.

(** [values.length ? values.reduce((a, b) => a + b, 0) / values.length : 0] *)
Definition avg_or_zero (values : list number) : number :=
  match values with
  | [] => pos_zero
  | _ => div (fold_left add values pos_zero) (ofZ (Z.of_nat (List.length values)))
  end.

(** [series.length ? series[series.length - 1] : absent] *)
Definition last_sample (series : list MetricData) : option MetricData :=
  match series with
  | [] => None
  | m :: l => Some (last l m)
  end.

Definition latest_timestamp (series : list MetricData) : Z :=
  match last_sample series with
  | Some m => timestamp m
  | None => 0
  end.

(** ** Runtime values and the snapshot file *)

(** What [JSON.parse] can return, and what the variable [store] can
    therefore hold after a load.  An object is the list of its own
    properties in key order (no two of one name). *)
Inductive jsval :=
| JNull
| JBool (b : bool)
| JNum (x : number)
| JStr (s : string)
| JArr (elems : list jsval)
| JObj (props : list (string * jsval)).

(** The text of the snapshot file, represented by what [JSON.parse]
    makes of it: a [SyntaxError], or the value the text denotes. *)
Inductive file_text :=
| NotJson (raw : string)
| JsonText (doc : jsval).

Definition JSON_parse (data : file_text) : option jsval :=
  match data with
  | NotJson _ => None
  | JsonText doc => Some doc
  end.

(** The value that the text written by [JSON.stringify] denotes: a
    number that is not finite is written as [null], and a zero is
    written as [0] whatever its sign. *)
Fixpoint written (v : jsval) : jsval :=
  match v with
  | JNum x =>
      if is_finite x then (if is_zero x then JNum pos_zero else JNum x)
      else JNull
  | JArr elems => JArr (map written elems)
  | JObj props => JObj (map (fun kv => (fst kv, written (snd kv))) props)
  | _ => v
  end.

Definition JSON_stringify (v : jsval) : file_text := JsonText (written v).

(** The store object as a runtime value. *)
Definition of_sample (m : MetricData) : jsval :=
  JObj [("timestamp", JNum (ofZ (timestamp m))); ("value", JNum (value m))].

Definition of_store (s : StoreType) : jsval :=
  JObj [("cpu", JArr (map of_sample (cpu s)));
        ("ram", JArr (map of_sample (ram s)));
        ("disk", JArr (map of_sample (disk s)));
        ("diskGrowth", JNum (diskGrowth s))].

(** [saveDataToFile]: the text written to the data file. *)
Definition saveDataToFile (s : StoreType) : file_text :=
  JSON_stringify (of_store s).

Fixpoint get_prop (key : string) (props : list (string * jsval)) : option jsval :=
  match props with
  | [] => None
  | (k, v) :: rest => if String.eqb k key then Some v else get_prop key rest
  end.

Definition isArray (v : jsval) : bool :=
  match v with JArr _ => true | _ => false end.

(** [ToString] of a runtime value.  An array is joined
    ([Array.prototype.join], where [null] gives the empty string).  An
    object is read through [Object.prototype.toString], unless it has
    an own property named toString: a value that comes from JSON is
    never callable, and neither [valueOf] nor [toString] then gives a
    primitive, so the conversion throws a [TypeError] ([None]). *)
Fixpoint ToString (v : jsval) : option string :=
  match v with
  | JNull => Some "null"
  | JBool b => Some (if b then "true" else "false")
  | JNum x => Some (Number_toString x)
  | JStr s => Some s
  | JArr elems =>
      option_map (String.concat ",")
        ((fix parts (l : list jsval) : option (list string) :=
            match l with
            | [] => Some []
            | e :: l' =>
                match match e with JNull => Some "" | _ => ToString e end,
                      parts l' with
                | Some str, Some rest => Some (str :: rest)
                | _, _ => None
                end
            end) elems)
  | JObj props =>
      match get_prop "toString" props with
      | Some _ => None
      | None => Some "[object Object]"
      end
  end.

Section Load.

(** [StringToNumber] of the runtime, which reads a string operand of
    a numeric comparison. *)
Variable StringToNumber : string -> number.

(** [ToNumber] of an operand of a numeric comparison; [None] when the
    conversion of an object to a primitive throws. *)
Definition ToNumber (v : jsval) : option number :=
  match v with
  | JNull => Some pos_zero
  | JBool b => Some (if b then ofZ 1 else pos_zero)
  | JNum x => Some x
  | JStr s => Some (StringToNumber s)
  | JArr _ | JObj _ => option_map StringToNumber (ToString v)
  end.

(** The filter callback [(m) => m.timestamp >= cutoff].  Reading a
    property of [null] throws, and so does the comparison when the
    timestamp has no primitive value; a missing property is
    [undefined], which compares false. *)
Definition fresh (cutoff : number) (m : jsval) : option bool :=
  match m with
  | JNull => None
  | JObj props =>
      match get_prop "timestamp" props with
      | Some t => option_map (fun x => geb x cutoff) (ToNumber t)
      | None => Some false
      end
  | _ => Some false
  end.

(** [Array.prototype.filter] with that callback; [None] when the
    callback throws. *)
Fixpoint filter_fresh (cutoff : number) (l : list jsval) : option (list jsval) :=
  match l with
  | [] => Some []
  | m :: l' =>
      match fresh cutoff m with
      | None => None
      | Some keep =>
          match filter_fresh cutoff l' with
          | None => None
          | Some r => Some (if keep then m :: r else r)
          end
      end
  end.

(** One round of the loop over [Object.keys(parsedData)]. *)
Definition purge_property (cutoff : number) (key : string) (v : jsval) : option jsval :=
  match v with
  | JArr elems =>
      if negb (String.eqb key "diskGrowth")
      then option_map JArr (filter_fresh cutoff elems)
      else Some v
  | _ => Some v
  end.

Fixpoint purge_properties (cutoff : number) (props : list (string * jsval))
  : option (list (string * jsval)) :=
  match props with
  | [] => Some []
  | (key, v) :: rest =>
      match purge_property cutoff key v with
      | None => None
      | Some v' =>
          option_map (cons (key, v')) (purge_properties cutoff rest)
      end
  end.

Fixpoint purge_elements (cutoff : number) (elems : list jsval) : option (list jsval) :=
  match elems with
  | [] => Some []
  | v :: rest =>
      match purge_property cutoff "0" v with
      | None => None
      | Some v' => option_map (cons v') (purge_elements cutoff rest)
      end
  end.

(** The whole loop: [Object.keys(null)] throws, an object or array
    has its array-valued properties filtered, any other value has no
    property that is an array. *)
Definition purge_parsed (cutoff : number) (parsedData : jsval) : option jsval :=
  match parsedData with
  | JNull => None
  | JObj props => option_map JObj (purge_properties cutoff props)
  | JArr elems => option_map JArr (purge_elements cutoff elems)
  | _ => Some parsedData
  end.

(** [loadDataFromFile], run at time [now] on the data file (absent,
    or holding a text) with the variable [store] holding [store0]:
    the value [store] holds afterwards.  Every exception is caught
    and leaves [store] as it was. *)
Definition loadDataFromFile (file : option file_text) (now : Z) (store0 : jsval) : jsval :=
  match file with
  | None => store0
  | Some data =>
      match JSON_parse data with
      | None => store0
      | Some parsedData =>
          let cutoff := ofZ (now - RETENTION) in
          match purge_parsed cutoff parsedData with
          | None => store0
          | Some parsedData' => parsedData'
          end
      end
  end.

End Load.

(** ** The sample cycle *)

(** The values handed to the PM2 metrics at the end of a cycle. *)
Record Metrics := {
  m_cpuMax : number;
  m_cpuAvg : number;
  m_ramMax : number;
  m_ramAvg : number;
  m_disk : number;
  m_diskGrowth : number
}.

(** One round of the loop over [Object.keys(store)]: every key but
    [diskGrowth] holds an array, which is filtered. *)
Definition purge_key (cutoff : Z) (key : store_key) (s : StoreType) : StoreType :=
  let keep := filter (fun m => cutoff <=? timestamp m) in
  match key with
  | key_cpu => set_cpu s (keep (cpu s))
  | key_ram => set_ram s (keep (ram s))
  | key_disk => set_disk s (keep (disk s))
  | key_diskGrowth => s
  end.

(** [update], from the point where the four readings are in hand: [now]
    is [Date.now()], and [cpuNow], [ramNow], [diskNow], [diskSizeGB] are
    the results of the four samplers.  It returns the metrics it
    publishes and the text it saves.  The call as a whole, with the
    samplers and the [catch] block, is [update_with_samplers]. *)
Definition update (now : Z) (cpuNow ramNow diskNow diskSizeGB : number)
  : State (Metrics * file_text) :=
  modify (fun s => set_cpu s (cpu s ++ [{| timestamp := now; value := cpuNow |}])%list) ;;
  modify (fun s => set_ram s (ram s ++ [{| timestamp := now; value := ramNow |}])%list) ;;
  prior <- gets (fun s => last_sample (disk s)) ;;
  match prior with
  | Some lastDisk =>
      let hoursDiff := div (ofZ (now - timestamp lastDisk)) (ofZ (1000 * 60 * 60)) in
      if gtb hoursDiff pos_zero then
        let percentDiff := sub diskNow (value lastDisk) in
        modify (fun s =>
          set_diskGrowth s (div (mul (div percentDiff (ofZ 100)) diskSizeGB) hoursDiff))
      else ret tt
  | None => ret tt
  end ;;
  modify (fun s => set_disk s (disk s ++ [{| timestamp := now; value := diskNow |}])%list) ;;
  let cutoff := now - RETENTION in
  forEach Object_keys_store (fun key => modify (purge_key cutoff key)) ;;
  cpuValues <- gets (fun s => values_of (cpu s)) ;;
  let cpuMax := max_or_zero cpuValues in
  let cpuAvg := avg_or_zero cpuValues in
  ramValues <- gets (fun s => values_of (ram s)) ;;
  let ramMax := max_or_zero ramValues in
  let ramAvg := avg_or_zero ramValues in
  growth <- gets diskGrowth ;;
  saved <- gets saveDataToFile ;;
  ret ({| m_cpuMax := roundInt cpuMax;
          m_cpuAvg := roundInt cpuAvg;
          m_ramMax := roundInt ramMax;
          m_ramAvg := roundInt ramAvg;
          m_disk := roundInt diskNow;
          m_diskGrowth := roundRawNum growth |}, saved).

(** A run of sample cycles, each with its clock reading and readings. *)
Record Cycle := {
  c_now : Z;
  c_cpu : number;
  c_ram : number;
  c_disk : number;
  c_diskSizeGB : number
}.

Definition run_cycle (c : Cycle) : State unit :=
  update (c_now c) (c_cpu c) (c_ram c) (c_disk c) (c_diskSizeGB c) ;; ret tt.

Definition run_cycles (cycles : list Cycle) : State unit :=
  forEach cycles run_cycle.

(** ** Statistics *)

Record UsageStats := {
  u_max : string;
  u_avg : string;
  u_count : Z;
  u_timestamp : Z
}.

Record DiskStats := {
  d_current : string;
  d_growth : string;
  d_count : Z;
  d_timestamp : Z
}.

Record Stats := {
  stats_cpu : UsageStats;
  stats_ram : UsageStats;
  stats_disk : DiskStats
}.

Definition getStats : State Stats :=
  cpuValues <- gets (fun s => values_of (cpu s)) ;;
  let cpuMax := max_or_zero cpuValues in
  let cpuAvg := avg_or_zero cpuValues in
  cpuLatestTimestamp <- gets (fun s => latest_timestamp (cpu s)) ;;
  ramValues <- gets (fun s => values_of (ram s)) ;;
  let ramMax := max_or_zero ramValues in
  let ramAvg := avg_or_zero ramValues in
  ramLatestTimestamp <- gets (fun s => latest_timestamp (ram s)) ;;
  diskValues <- gets (fun s => values_of (disk s)) ;;
  let diskCurrent := last diskValues pos_zero in
  diskLatestTimestamp <- gets (fun s => latest_timestamp (disk s)) ;;
  cpuCount <- gets (fun s => Z.of_nat (List.length (cpu s))) ;;
  ramCount <- gets (fun s => Z.of_nat (List.length (ram s))) ;;
  diskCount <- gets (fun s => Z.of_nat (List.length (disk s))) ;;
  growth <- gets diskGrowth ;;
  ret {| stats_cpu := {| u_max := formatIntWithPercent cpuMax;
                         u_avg := formatIntWithPercent cpuAvg;
                         u_count := cpuCount;
                         u_timestamp := cpuLatestTimestamp |};
         stats_ram := {| u_max := formatIntWithPercent ramMax;
                         u_avg := formatIntWithPercent ramAvg;
                         u_count := ramCount;
                         u_timestamp := ramLatestTimestamp |};
         stats_disk := {| d_current := formatIntWithPercent diskCurrent;
                          d_growth := formatGrowthGB growth;
                          d_count := diskCount;
                          d_timestamp := diskLatestTimestamp |} |}.

(** ** Vocabulary of the properties *)

(** A computation that only reads the store. *)
Definition read_only {A : Type} (c : State A) : Prop :=
  forall s, snd (c s) = s.

(** Every sample of a series is at most one retention window older
    than [now]. *)
Definition within_window (now : Z) (series : list MetricData) : Prop :=
  Forall (fun m => now - 3600000 <= timestamp m) series.

Definition store_within_window (now : Z) (s : StoreType) : Prop :=
  within_window now (cpu s) /\ within_window now (ram s) /\ within_window now (disk s).

(** [v[key]] for a runtime value; [None] is [undefined]. *)
Definition field (key : string) (v : jsval) : option jsval :=
  match v with
  | JObj props => get_prop key props
  | _ => None
  end.

(** The elapsed time of the disk growth rule, in hours. *)
Definition elapsedHours (now : Z) (lastSample : MetricData) : number :=
  div (ofZ (now - timestamp lastSample)) (ofZ 3600000).

(** The text after the sign prefix of a growth string outside the
    dead zone. *)
Definition magnitude_text (r : number) : string :=
  Number_toString (roundRawNum (Math_abs r)) ++ " GB".

(** A binary64 value in canonical form. *)
Definition is_binary64 (x : number) : Prop := valid_binary prec emax x = true.

Definition finite_series (series : list MetricData) : Prop :=
  Forall (fun m => is_finite (value m) = true) series.

Definition timestamps_in_range (series : list MetricData) : Prop :=
  Forall (fun m => 0 <= timestamp m < 2 ^ 53) series.

(** A zero read back from the file is positive. *)
Definition unsigned_zero (x : number) : number :=
  if is_zero x then pos_zero else x.

Definition unsigned_zeros (series : list MetricData) : list MetricData :=
  map (fun m => {| timestamp := timestamp m; value := unsigned_zero (value m) |}) series.

(** The store that a saved snapshot restores at time [now]. *)
Definition restored (now : Z) (s : StoreType) : StoreType :=
  let keep := filter (fun m => now - RETENTION <=? timestamp m) in
  {| cpu := unsigned_zeros (keep (cpu s));
     ram := unsigned_zeros (keep (ram s));
     disk := unsigned_zeros (keep (disk s));
     diskGrowth := unsigned_zero (diskGrowth s) |}.

(** Two samples with one timestamp and numerically equal values. *)
Definition same_sample (a b : MetricData) : Prop :=
  timestamp a = timestamp b /\ SFeqb (value a) (value b) = true.

Definition same_store (a b : StoreType) : Prop :=
  Forall2 same_sample (cpu a) (cpu b) /\
  Forall2 same_sample (ram a) (ram b) /\
  Forall2 same_sample (disk a) (disk b) /\
  SFeqb (diskGrowth a) (diskGrowth b) = true.


(** A positive normal number of exponent at least [k], or +Infinity. *)
Definition normal_from (k : Z) (x : number) : Prop :=
  x = S754_infinity false \/
  exists m e, x = S754_finite false m e /\
              Zpos (digits2_pos m) = 53 /\ k <= e <= 971.

(** A string whose first character is not the digit zero. *)
Definition starts_nonzero (str : string) : Prop :=
  exists c rest, str = String c rest /\ c <> "0"%char.

(** ** Vocabulary of the cycle properties *)

(** Every sample is at least one sampling interval older than all the
    samples after it. *)
Fixpoint spaced (series : list MetricData) : Prop :=
  match series with
  | [] => True
  | m :: rest =>
      Forall (fun m' => timestamp m + INTERVAL <= timestamp m') rest /\
      spaced rest
  end.

(** A series as the timer leaves it at time [t]: spaced samples, none
    older than the retention window and none later than [t]. *)
Definition paced (t : Z) (series : list MetricData) : Prop :=
  spaced series /\
  Forall (fun m => t - RETENTION <= timestamp m <= t) series.

Definition store_paced (t : Z) (s : StoreType) : Prop :=
  paced t (cpu s) /\ paced t (ram s) /\ paced t (disk s).

(** Clock readings of consecutive cycles at least [gap] apart. *)
Fixpoint ticks_apart (gap : Z) (cycles : list Cycle) : Prop :=
  match cycles with
  | [] => True
  | c :: rest =>
      match rest with
      | [] => True
      | c' :: _ => c_now c + gap <= c_now c'
      end /\ ticks_apart gap rest
  end.

(** ** The repository checker of [git-checker.ts] *)

Definition CHECK_INTERVAL_MIN : Z := 5 * 60 * 1000.

(** [!v] for a value that is a string or [null]. *)
Definition falsy (v : option string) : bool :=
  match v with
  | Some str => String.eqb str ""
  | None => true
  end.

(** [a !== b] for two such values. *)
Definition strict_differ (a b : option string) : bool :=
  match a, b with
  | Some x, Some y => negb (String.eqb x y)
  | None, None => false
  | _, _ => true
  end.

(** A string or [null] inside a template literal. *)
Definition text (v : option string) : string :=
  match v with
  | Some str => str
  | None => "null"
  end.

Section GitChecker.

(** The machine outside the program: [execAsync] runs a shell command
    and gives its standard output, or fails with an error message; the
    repository and the network it acts on are the [World].  [trim] is
    [String.prototype.trim]. *)
Variable World : Type.
Variable execAsync : string -> World -> (string + string) * World.
Variable trim : string -> string.

(** The state of the module: the variable [lastCheckTime], the
    messages appended to the log file (their time prefix left out),
    the commands handed to [execAsync] so far, and the world. *)
Record Repo := {
  lastCheckTime : Z;
  logFile : list string;
  commands : list string;
  world : World
}.

Definition log (message : string) (r : Repo) : Repo :=
  {| lastCheckTime := lastCheckTime r;
     logFile := (logFile r ++ [message])%list;
     commands := commands r;
     world := world r |}.

Definition set_lastCheckTime (r : Repo) (now : Z) : Repo :=
  {| lastCheckTime := now;
     logFile := logFile r;
     commands := commands r;
     world := world r |}.

Definition execGitCommand (command : string) (r : Repo) : option string * Repo :=
  let '(result, w) := execAsync command (world r) in
  let r' := {| lastCheckTime := lastCheckTime r;
               logFile := logFile r;
               commands := (commands r ++ [command])%list;
               world := w |} in
  match result with
  | inl stdout => (Some (trim stdout), r')
  | inr message => (None, log ("Gitコマンドエラー: " ++ message) r')
  end.

(** [checkAndUpdateRepo], called at time [now] ([Date.now()]). *)
Definition checkAndUpdateRepo (now : Z) (r : Repo) : bool * Repo :=
  if now - lastCheckTime r <? CHECK_INTERVAL_MIN then (false, r)
  else
    let r := set_lastCheckTime r now in
    let r := log "リモートの更新を確認しています..." r in
    let '(remoteUpdate, r) := execGitCommand "git remote update" r in
    match remoteUpdate with
    | None =>
        (false, log "リモート更新の取得に失敗しました。次回のアクセスで再試行します。" r)
    | Some _ =>
        let '(localHash, r) := execGitCommand "git rev-parse HEAD" r in
        let '(localBranch, r) := execGitCommand "git rev-parse --abbrev-ref HEAD" r in
        if falsy localBranch then
          (false, log "ローカルブランチの取得に失敗しました。次回のアクセスで再試行します。" r)
        else
          let remoteBranch := "origin/" ++ text localBranch in
          let '(remoteHash, r) := execGitCommand ("git rev-parse " ++ remoteBranch) r in
          if falsy localHash || falsy remoteHash then
            (false, log "ハッシュの取得に失敗しました。次回のアクセスで再試行します。" r)
          else if strict_differ localHash remoteHash then
            let r := log "リモートに更新があります。プル操作を開始します..." r in
            let '(pullResult, r) := execGitCommand "git pull" r in
            if negb (falsy pullResult) then
              (true, log ("プル成功: " ++ text pullResult) r)
            else
              (false, log "プル操作に失敗しました" r)
          else
            (false, log "リモートに更新はありません" r)
    end.

(** ** The request handler of [Bun.serve] *)

Inductive Response :=
| JsonResponse (body : Stats)
| NotFound.

(** [fetch], for a request with path [pathname] arriving at time
    [now]; [sample] holds what the samplers and the clock give if the
    handler runs [update].  The server state is the store and the
    state of the checker. *)
Definition fetch (pathname : string) (now : Z) (sample : Cycle)
    (srv : StoreType * Repo) : Response * (StoreType * Repo) :=
  let '(s, r) := srv in
  if String.eqb pathname "/server-monitor" then
    let '(updated, r') := checkAndUpdateRepo now r in
    let s' := if updated then snd (run_cycle sample s) else s in
    (JsonResponse (fst (getStats s')), (s', r'))
  else (NotFound, (s, r)).

End GitChecker.

Arguments lastCheckTime {World}.
Arguments logFile {World}.
Arguments commands {World}.
Arguments world {World}.

(** ** The later revision of the checker ([unnamed/part_001])

    It shares the state, [log] and [execGitCommand] with the first
    revision, looks at the working tree before it pulls, and resets the
    branch when a pull fails on diverged branches. *)

(** [hay.includes(needle)] *)
Fixpoint includes (needle hay : string) : bool :=
  prefix needle hay ||
  match hay with
  | EmptyString => false
  | String _ rest => includes needle rest
  end.

Module Revised.

Section GitChecker.

Variable World : Type.
Variable execAsync : string -> World -> (string + string) * World.
Variable trim : string -> string.

Definition forceUpdateDivergentBranch (r : Repo World) : bool * Repo World :=
  let command :=
    "git fetch && git reset --hard origin/$(git rev-parse --abbrev-ref HEAD)" in
  let '(result, w) := execAsync command (world r) in
  let r' := {| lastCheckTime := lastCheckTime r;
               logFile := logFile r;
               commands := (commands r ++ [command])%list;
               world := w |} in
  match result with
  | inl stdout => (true, log World ("ブランチ強制更新成功: " ++ trim stdout) r')
  | inr message => (false, log World ("ブランチ強制更新失敗: " ++ message) r')
  end.

Definition checkAndUpdateRepo (now : Z) (r : Repo World) : bool * Repo World :=
  let execGitCommand := execGitCommand World execAsync trim in
  let log := log World in
  if now - lastCheckTime r <? CHECK_INTERVAL_MIN then (false, r)
  else
    let r := set_lastCheckTime World r now in
    let r := log "リモートの更新を確認しています..." r in
    let '(remoteUpdate, r) := execGitCommand "git remote update" r in
    match remoteUpdate with
    | None =>
        (false, log "リモート更新の取得に失敗しました。次回のアクセスで再試行します。" r)
    | Some _ =>
        let '(localHash, r) := execGitCommand "git rev-parse HEAD" r in
        let '(localBranch, r) := execGitCommand "git rev-parse --abbrev-ref HEAD" r in
        if falsy localBranch then
          (false, log "ローカルブランチの取得に失敗しました。次回のアクセスで再試行します。" r)
        else
          let remoteBranch := "origin/" ++ text localBranch in
          let '(remoteHash, r) := execGitCommand ("git rev-parse " ++ remoteBranch) r in
          if falsy localHash || falsy remoteHash then
            (false, log "ハッシュの取得に失敗しました。次回のアクセスで再試行します。" r)
          else if strict_differ localHash remoteHash then
            let r := log "リモートに更新があります。プル操作を開始します..." r in
            let '(statusResult, r) := execGitCommand "git status --porcelain" r in
            let hasLocalChanges :=
              negb (falsy statusResult) &&
              (0 <? Z.of_nat (String.length (text statusResult))) in
            if hasLocalChanges then
              let r := log ("ローカルに変更があります: " ++ text statusResult) r in
              let r := log "ローカルの変更を保護するため、自動更新を中止します。" r in
              let r := log "手動でローカルの変更を処理した後、更新を再試行してください。" r in
              (false, r)
            else
              let '(pullResult, r) := execGitCommand "git pull" r in
              if negb (falsy pullResult) then
                (true, log ("プル成功: " ++ text pullResult) r)
              else
                let r := log "通常のプル操作に失敗しました。ブランチの分岐が原因の可能性があります。" r in
                let '(statusOutput, r) := execGitCommand "git status -b --porcelain=v2" r in
                if negb (falsy statusOutput) && includes "diverged" (text statusOutput) then
                  let r := log "ブランチが分岐しています。マージ戦略を設定して再試行します。" r in
                  let '(_, r) := execGitCommand "git config pull.rebase false" r in
                  let '(secondPullResult, r) := execGitCommand "git pull" r in
                  if negb (falsy secondPullResult) then
                    (true, log ("設定変更後のプル成功: " ++ text secondPullResult) r)
                  else
                    let r := log "ブランチ分岐の解決に失敗しました。最終手段としてブランチリセットを試みます。" r in
                    forceUpdateDivergentBranch r
                else
                  (false, log "不明な理由でプルに失敗しました。手動での対応が必要です。" r)
          else
            (false, log "リモートに更新はありません" r)
    end.

End GitChecker.

End Revised.

(** ** The cpu sampler and the whole cycle *)

(** One element of [cpuInfo]: the idle time of a cpu and the sum of
    its times, as the first [map] of [getCpuUsage] computes them from
    [os.cpus()]. *)
Record CpuInfo := { idle : number; total : number }.

(** The second [map] of [getCpuUsage]: the usage of every cpu against
    the element of [lastCpuInfo] at the same index.  [None] is the
    [TypeError] of reading [.idle] of [undefined], when [lastCpuInfo]
    is the shorter list. *)
Fixpoint usages (cpuInfo lastCpuInfo : list CpuInfo) : option (list number) :=
  match cpuInfo with
  | [] => Some []
  | info :: rest =>
      match lastCpuInfo with
      | [] => None
      | last :: lastRest =>
          let idleDiff := sub (idle info) (idle last) in
          let totalDiff := sub (total info) (total last) in
          let usage :=
            if gtb totalDiff pos_zero
            then sub (ofZ 100) (mul (div idleDiff totalDiff) (ofZ 100))
            else pos_zero in
          option_map (cons usage) (usages rest lastRest)
      end
  end.

(** [getCpuUsage] on the variable [lastCpuInfo]: the mean usage and
    the new value of the variable, or the exception, which leaves the
    variable as it was. *)
Definition getCpuUsage (cpuInfo lastCpuInfo : list CpuInfo)
  : option number * list CpuInfo :=
  match usages cpuInfo lastCpuInfo with
  | None => (None, lastCpuInfo)
  | Some us =>
      (Some (div (fold_left add us pos_zero) (ofZ (Z.of_nat (List.length us)))),
       cpuInfo)
  end.

(** What the clock, the operating system and the two [df] commands
    give to one call of [update]. *)
Record Tick := {
  t_now : Z;
  t_cpuInfo : list CpuInfo;
  t_ram : number;
  t_disk : number;
  t_diskSizeGB : number
}.

(** The whole of [update], samplers included, on the store and
    [lastCpuInfo]: when a sampler throws, the [catch] block logs the
    error and the store is not touched. *)
Definition update_with_samplers (t : Tick) (st : StoreType * list CpuInfo)
  : StoreType * list CpuInfo :=
  let '(s, lastCpuInfo) := st in
  match getCpuUsage (t_cpuInfo t) lastCpuInfo with
  | (None, lastCpuInfo') => (s, lastCpuInfo')
  | (Some cpuNow, lastCpuInfo') =>
      (snd (update (t_now t) cpuNow (t_ram t) (t_disk t) (t_diskSizeGB t) s),
       lastCpuInfo')
  end.

Definition run_ticks (ticks : list Tick) (st : StoreType * list CpuInfo)
  : StoreType * list CpuInfo :=
  fold_left (fun st t => update_with_samplers t st) ticks st.

(** A number that is not above zero because of its sign: a negative
    number, a negative zero or infinity, or NaN. *)
Definition negative_or_nan (x : number) : Prop :=
  match x with
  | S754_zero true | S754_infinity true | S754_finite true _ _ | S754_nan => True
  | _ => False
  end.

(** The three series hold samples of the same instants. *)
Definition aligned (s : StoreType) : Prop :=
  map timestamp (cpu s) = map timestamp (ram s) /\
  map timestamp (cpu s) = map timestamp (disk s).

(** * Properties *)

(** ** Reading and writing the store *)

Lemma read_only_ret {A : Type} (a : A) : read_only (ret a).
Proof. intro s. reflexivity. Qed.

Lemma read_only_gets {A : Type} (f : StoreType -> A) : read_only (gets f).
Proof. intro s. reflexivity. Qed.

Lemma read_only_bind {A B : Type} (c : State A) (k : A -> State B) :
  read_only c -> (forall a, read_only (k a)) -> read_only (bind c k).
Proof.
  intros Hc Hk s. unfold bind.
  specialize (Hc s). destruct (c s) as [a s1]. simpl in Hc. subst s1.
  apply Hk.
Qed.

Create HintDb store_reads.
#[local] Hint Resolve read_only_ret read_only_gets : store_reads.

Ltac reads_only :=
  repeat (apply read_only_bind; [auto with store_reads | intro]);
  auto with store_reads.

Lemma getStats_read_only : read_only getStats.
Proof. unfold getStats. reads_only. Qed.

Lemma forEach_app {A : Type} (l1 l2 : list A) (body : A -> State unit) s :
  forEach (l1 ++ l2) body s = forEach l2 body (snd (forEach l1 body s)).
Proof.
  revert s. induction l1 as [|a l1 IH]; intro s; simpl.
  - reflexivity.
  - unfold bind. destruct (body a s) as [u s1]. apply IH.
Qed.

(** ** What one cycle does to each field *)

Ltac run_update :=
  unfold update, bind, modify, gets, ret; cbn;
  match goal with
  | |- context [last_sample (disk ?s)] =>
      destruct (last_sample (disk s)); cbn;
      [ match goal with |- context [gtb ?a ?b] => destruct (gtb a b) end | ];
      reflexivity
  end.

Lemma update_cpu now cpuNow ramNow diskNow diskSizeGB s :
  cpu (snd (update now cpuNow ramNow diskNow diskSizeGB s)) =
  filter (fun m => now - RETENTION <=? timestamp m)
         (cpu s ++ [{| timestamp := now; value := cpuNow |}]).
Proof. run_update. Qed.

Lemma update_ram now cpuNow ramNow diskNow diskSizeGB s :
  ram (snd (update now cpuNow ramNow diskNow diskSizeGB s)) =
  filter (fun m => now - RETENTION <=? timestamp m)
         (ram s ++ [{| timestamp := now; value := ramNow |}]).
Proof. run_update. Qed.

Lemma update_disk now cpuNow ramNow diskNow diskSizeGB s :
  disk (snd (update now cpuNow ramNow diskNow diskSizeGB s)) =
  filter (fun m => now - RETENTION <=? timestamp m)
         (disk s ++ [{| timestamp := now; value := diskNow |}]).
Proof. run_update. Qed.

Lemma update_diskGrowth now cpuNow ramNow diskNow diskSizeGB s :
  diskGrowth (snd (update now cpuNow ramNow diskNow diskSizeGB s)) =
  match last_sample (disk s) with
  | Some lastDisk =>
      if gtb (elapsedHours now lastDisk) pos_zero
      then div (mul (div (sub diskNow (value lastDisk)) (ofZ 100)) diskSizeGB)
               (elapsedHours now lastDisk)
      else diskGrowth s
  | None => diskGrowth s
  end.
Proof.
  unfold elapsedHours. change 3600000 with (1000 * 60 * 60). run_update.
Qed.



Lemma run_cycle_store c s :
  snd (run_cycle c s) =
  snd (update (c_now c) (c_cpu c) (c_ram c) (c_disk c) (c_diskSizeGB c) s).
Proof.
  unfold run_cycle, bind.
  destruct (update _ _ _ _ _ s) as [r s1]. reflexivity.
Qed.

Lemma run_cycles_snoc cycles c s :
  snd (run_cycles (cycles ++ [c]) s) =
  snd (update (c_now c) (c_cpu c) (c_ram c) (c_disk c) (c_diskSizeGB c)
         (snd (run_cycles cycles s))).
Proof.
  unfold run_cycles. rewrite forEach_app. simpl.
  unfold bind at 1. rewrite <- run_cycle_store.
  destruct (run_cycle c _) as [u s1]. reflexivity.
Qed.


(** ** What a load leaves in the series *)

Section LoadProperties.

Variable StringToNumber : string -> number.





End LoadProperties.


(** ** Comparisons against zero *)

Lemma not_positive x : leb x pos_zero = true -> gtb x pos_zero = false.
Proof. destruct x as [s | s | | s m e]; try destruct s; cbn; congruence. Qed.

Lemma positive_abs x : gtb x pos_zero = true -> Math_abs x = x.
Proof. destruct x as [s | s | | s m e]; try destruct s; cbn; congruence. Qed.

Lemma negative_not_positive x : ltb x pos_zero = true -> gtb x pos_zero = false.
Proof. destruct x as [s | s | | s m e]; try destruct s; cbn; congruence. Qed.

(** C2. Disk growth update rule.  In a sample cycle: when the disk
    series is empty, diskGrowth is left as it was; when it has a last
    sample and the elapsed time, (now - its timestamp) / 3,600,000 in
    hours, is strictly positive, diskGrowth becomes
    ((value - its value) / 100) * diskCapacityGB / elapsedHours; when
    the elapsed time is at most zero, diskGrowth is left as it was.
    The cycle is a total function of the store: no case raises an
    error. *)
Theorem disk_growth_rule now cpuNow ramNow diskNow diskSizeGB s :
  let s' := snd (update now cpuNow ramNow diskNow diskSizeGB s) in
  (disk s = [] -> diskGrowth s' = diskGrowth s) /\
  (forall lastSample,
      last_sample (disk s) = Some lastSample ->
      gtb (elapsedHours now lastSample) pos_zero = true ->
      diskGrowth s' =
      div (mul (div (sub diskNow (value lastSample)) (ofZ 100)) diskSizeGB)
          (elapsedHours now lastSample)) /\
  (forall lastSample,
      last_sample (disk s) = Some lastSample ->
      leb (elapsedHours now lastSample) pos_zero = true ->
      diskGrowth s' = diskGrowth s).
Proof.
  intro s'. subst s'. rewrite update_diskGrowth. repeat split.
  - intros ->. reflexivity.
  - intros l -> ->. reflexivity.
  - intros l -> H. rewrite (not_positive _ H). reflexivity.
Qed.

Lemma disk_growth_rule_witness :
  let prior := {| timestamp := 1000; value := ofZ 40 |} in
  let s := {| cpu := []; ram := []; disk := [prior]; diskGrowth := ofZ 7 |} in
  (last_sample (disk s) = Some prior /\
   gtb (elapsedHours 1801000 prior) pos_zero = true /\
   diskGrowth (snd (update 1801000 (ofZ 1) (ofZ 2) (ofZ 41) (ofZ 200) s)) =
   div (mul (div (sub (ofZ 41) (ofZ 40)) (ofZ 100)) (ofZ 200))
       (elapsedHours 1801000 prior)) /\
  (last_sample (disk s) = Some prior /\
   leb (elapsedHours 1000 prior) pos_zero = true /\
   diskGrowth (snd (update 1000 (ofZ 1) (ofZ 2) (ofZ 41) (ofZ 200) s)) = ofZ 7) /\
  (disk default_store = [] /\
   diskGrowth (snd (update 1000 (ofZ 1) (ofZ 2) (ofZ 41) (ofZ 200) default_store))
   = pos_zero).
Proof.
  intros prior s.
  assert (Hlast : last_sample (disk s) = Some prior) by reflexivity.
  assert (Hpos : gtb (elapsedHours 1801000 prior) pos_zero = true)
    by (vm_compute; reflexivity).
  assert (Hnot : leb (elapsedHours 1000 prior) pos_zero = true)
    by (vm_compute; reflexivity).
  assert (Hempty : disk default_store = []) by reflexivity.
  split; [|split].
  - split; [exact Hlast | split; [exact Hpos|]].
    exact (proj1 (proj2 (disk_growth_rule 1801000 (ofZ 1) (ofZ 2) (ofZ 41) (ofZ 200) s))
             prior Hlast Hpos).
  - split; [exact Hlast | split; [exact Hnot|]].
    exact (proj2 (proj2 (disk_growth_rule 1000 (ofZ 1) (ofZ 2) (ofZ 41) (ofZ 200) s))
             prior Hlast Hnot).
  - split; [exact Hempty|].
    exact (proj1 (disk_growth_rule 1000 (ofZ 1) (ofZ 2) (ofZ 41) (ofZ 200) default_store)
             Hempty).
Defined.

(** C7. Exact disk growth example.  With a last disk sample
    {t0, 40}, a capacity of 100 GB and a new disk reading of 45 taken
    at t0 + 3,600,000, the cycle sets diskGrowth to the number 5
    exactly: (5 / 100) * 100 / 1 leaves no rounding residue in
    binary64. *)
Theorem disk_growth_example t0 cpuNow ramNow s :
  last_sample (disk s) = Some {| timestamp := t0; value := ofZ 40 |} ->
  diskGrowth (snd (update (t0 + 3600000) cpuNow ramNow (ofZ 45) (ofZ 100) s)) = ofZ 5.
Proof.
  intro H. rewrite update_diskGrowth, H.
  unfold elapsedHours. cbn [timestamp value].
  replace (t0 + 3600000 - t0) with 3600000 by lia.
  vm_compute. reflexivity.
Qed.

Lemma disk_growth_example_witness :
  let s := {| cpu := []; ram := [];
              disk := [{| timestamp := 1700000000000; value := ofZ 40 |}];
              diskGrowth := pos_zero |} in
  last_sample (disk s) = Some {| timestamp := 1700000000000; value := ofZ 40 |} /\
  diskGrowth (snd (update (1700000000000 + 3600000) (ofZ 12) (ofZ 50) (ofZ 45) (ofZ 100) s))
  = ofZ 5.
Proof.
  intro s.
  assert (H : last_sample (disk s)
              = Some {| timestamp := 1700000000000; value := ofZ 40 |}) by reflexivity.
  split; [exact H|].
  exact (disk_growth_example 1700000000000 (ofZ 12) (ofZ 50) s H).
Defined.

(** C6. Empty-store boundary.  On the empty store (no sample in any
    series, diskGrowth zero) the statistics are max "0%", avg "0%",
    count 0 and timestamp 0 for CPU and for RAM, and current "0%",
    growth "±0 GB", count 0 and timestamp 0 for Disk. *)
Theorem empty_store_statistics :
  fst (getStats default_store) =
  {| stats_cpu := {| u_max := "0%"; u_avg := "0%"; u_count := 0; u_timestamp := 0 |};
     stats_ram := {| u_max := "0%"; u_avg := "0%"; u_count := 0; u_timestamp := 0 |};
     stats_disk := {| d_current := "0%"; d_growth := "±0 GB";
                      d_count := 0; d_timestamp := 0 |} |}.
Proof. vm_compute. reflexivity. Qed.

(** C8. Idempotence of statistics.  From any store, computing the
    statistics twice in a row, with no cycle in between, gives the same
    output both times. *)
Theorem statistics_idempotent s :
  let '(first, s1) := getStats s in
  let '(second, _) := getStats s1 in
  first = second.
Proof.
  pose proof (getStats_read_only s) as H.
  destruct (getStats s) as [first s1] eqn:E1. simpl in H. subst s1.
  rewrite E1. reflexivity.
Qed.

(** C9. Statistics is a pure read.  From any store, computing the
    statistics leaves the store as it was: the three series and
    diskGrowth are the same before and after. *)
Theorem statistics_pure_read s :
  let s' := snd (getStats s) in
  s' = s /\
  cpu s' = cpu s /\ ram s' = ram s /\ disk s' = disk s /\
  diskGrowth s' = diskGrowth s.
Proof.
  intro s'. subst s'. rewrite (getStats_read_only s). repeat split.
Qed.

(** ** Growth formatting *)

Lemma formatGrowthGB_dead_zone r :
  ltb (Math_abs r) (decimal 5 100) = true -> formatGrowthGB r = "±0 GB".
Proof. unfold formatGrowthGB. intros ->. reflexivity. Qed.

Lemma formatGrowthGB_signed r :
  ltb (Math_abs r) (decimal 5 100) = false ->
  formatGrowthGB r =
  (if gtb r pos_zero then "+ " else "- ") ++ magnitude_text r.
Proof.
  unfold formatGrowthGB, magnitude_text. intros ->.
  destruct (gtb r pos_zero) eqn:Hpos.
  - rewrite (positive_abs r Hpos). reflexivity.
  - reflexivity.
Qed.

(** C3. Growth dead-zone formatting.  For every rate r the growth
    string is "±0 GB" exactly when |r| < 0.05; otherwise it is "+ "
    for r > 0, or "- " for r < 0, followed by |r| rounded to one
    decimal place and " GB".  The rate 0.049 gives "±0 GB" and the
    rate 0.05 gives "+ 0.1 GB". *)
Theorem growth_dead_zone :
  (forall r, formatGrowthGB r = "±0 GB" <-> ltb (Math_abs r) (decimal 5 100) = true) /\
  (forall r,
      ltb (Math_abs r) (decimal 5 100) = false -> gtb r pos_zero = true ->
      formatGrowthGB r = "+ " ++ Number_toString (roundRawNum (Math_abs r)) ++ " GB") /\
  (forall r,
      ltb (Math_abs r) (decimal 5 100) = false -> ltb r pos_zero = true ->
      formatGrowthGB r = "- " ++ Number_toString (roundRawNum (Math_abs r)) ++ " GB") /\
  formatGrowthGB (decimal 49 1000) = "±0 GB" /\
  formatGrowthGB (decimal 5 100) = "+ 0.1 GB".
Proof.
  split; [|split; [|split; [|split]]].
  - intro r. split; [|apply formatGrowthGB_dead_zone].
    destruct (ltb (Math_abs r) (decimal 5 100)) eqn:Hd; [reflexivity|].
    rewrite (formatGrowthGB_signed r Hd).
    destruct (gtb r pos_zero); simpl; discriminate.
  - intros r Hd Hpos. rewrite (formatGrowthGB_signed r Hd), Hpos. reflexivity.
  - intros r Hd Hneg. rewrite (formatGrowthGB_signed r Hd).
    rewrite (negative_not_positive r Hneg). reflexivity.
  - vm_compute. reflexivity.
  - vm_compute. reflexivity.
Qed.

Lemma growth_dead_zone_witness :
  (ltb (Math_abs (decimal 123 100)) (decimal 5 100) = false /\
   gtb (decimal 123 100) pos_zero = true /\
   formatGrowthGB (decimal 123 100) = "+ 1.2 GB") /\
  (ltb (Math_abs (decimal (-27) 10)) (decimal 5 100) = false /\
   ltb (decimal (-27) 10) pos_zero = true /\
   formatGrowthGB (decimal (-27) 10) = "- 2.7 GB").
Proof.
  assert (Hp1 : ltb (Math_abs (decimal 123 100)) (decimal 5 100) = false)
    by (vm_compute; reflexivity).
  assert (Hp2 : gtb (decimal 123 100) pos_zero = true) by (vm_compute; reflexivity).
  assert (Hn1 : ltb (Math_abs (decimal (-27) 10)) (decimal 5 100) = false)
    by (vm_compute; reflexivity).
  assert (Hn2 : ltb (decimal (-27) 10) pos_zero = true) by (vm_compute; reflexivity).
  split.
  - split; [exact Hp1 | split; [exact Hp2|]].
    rewrite (proj1 (proj2 growth_dead_zone) (decimal 123 100) Hp1 Hp2).
    vm_compute. reflexivity.
  - split; [exact Hn1 | split; [exact Hn2|]].
    rewrite (proj1 (proj2 (proj2 growth_dead_zone)) (decimal (-27) 10) Hn1 Hn2).
    vm_compute. reflexivity.
Defined.

(** ** Binary64 arithmetic: digit counts *)

Lemma digits2_size p : digits2_pos p = Pos.size p.
Proof. induction p as [p IH | p IH | ]; simpl; congruence. Qed.

Lemma digits_bounds p :
  2 ^ (Zpos (digits2_pos p) - 1) <= Zpos p < 2 ^ Zpos (digits2_pos p).
Proof.
  rewrite digits2_size.
  pose proof (Pos.size_gt p) as Hgt. pose proof (Pos.size_le p) as Hle.
  apply Pos2Z.pos_lt_pos in Hgt. apply Pos2Z.pos_le_pos in Hle.
  rewrite Pos2Z.inj_pow in Hgt, Hle.
  replace (Zpos (Pos.size p)) with (Z.succ (Zpos (Pos.size p) - 1)) in Hle at 1 by lia.
  rewrite Z.pow_succ_r in Hle by lia.
  rewrite (Pos2Z.inj_xO p) in Hle. lia.
Qed.

Lemma digits_unique p d :
  2 ^ (d - 1) <= Zpos p < 2 ^ d -> Zpos (digits2_pos p) = d.
Proof.
  intros [Hlo Hhi]. pose proof (digits_bounds p) as [Blo Bhi].
  set (D := Zpos (digits2_pos p)) in *.
  assert (HD : 0 < D) by (subst D; lia).
  assert (Hd : 0 < d).
  { destruct (Z.lt_trichotomy d 0) as [Hn | [-> | Hp]]; [| |exact Hp].
    - rewrite Z.pow_neg_r in Hhi by lia. lia.
    - simpl in Hhi. lia. }
  destruct (Z.lt_trichotomy D d) as [Hlt | [Heq | Hgt]]; [|exact Heq|].
  - assert (2 ^ D <= 2 ^ (d - 1)) by (apply Z.pow_le_mono_r; lia). lia.
  - assert (2 ^ d <= 2 ^ (D - 1)) by (apply Z.pow_le_mono_r; lia). lia.
Qed.

Lemma digits_at_least p d :
  0 <= d -> 2 ^ d <= Zpos p -> d < Zpos (digits2_pos p).
Proof.
  intros Hd Hlo. pose proof (digits_bounds p) as [_ Bhi].
  destruct (Z.le_gt_cases (Zpos (digits2_pos p)) d) as [Hle|]; [|assumption].
  assert (2 ^ Zpos (digits2_pos p) <= 2 ^ d) by (apply Z.pow_le_mono_r; lia). lia.
Qed.

Lemma digits_at_most p d :
  Zpos p < 2 ^ d -> Zpos (digits2_pos p) <= d.
Proof.
  intros Hhi. pose proof (digits_bounds p) as [Blo _].
  destruct (Z.le_gt_cases (Zpos (digits2_pos p)) d) as [|Hgt]; [assumption|].
  assert (2 ^ d <= 2 ^ (Zpos (digits2_pos p) - 1)) by (apply Z.pow_le_mono_r; lia). lia.
Qed.

Lemma shifted_mantissa m k :
  Zpos (Pos.iter xO m k) = Zpos m * 2 ^ Zpos k.
Proof.
  change (Pos.iter xO m k) with (shift_pos k m).
  rewrite shift_pos_correct, Z.pow_pos_fold. lia.
Qed.

(** ** Binary64 arithmetic: shifting and rounding a mantissa *)

Lemma shr_1_m mrs : 0 <= shr_m mrs -> shr_m (shr_1 mrs) = shr_m mrs / 2.
Proof.
  destruct mrs as [m r s]. simpl. intro Hm.
  destruct m as [|p|p]; [reflexivity | | lia].
  destruct p as [p|p|]; simpl.
  - rewrite (Pos2Z.inj_xI p). apply (Z.div_unique _ _ _ 1); lia.
  - rewrite (Pos2Z.inj_xO p). apply (Z.div_unique _ _ _ 0); lia.
  - reflexivity.
Qed.

Lemma iter_shr_m n :
  forall mrs, 0 <= shr_m mrs ->
  shr_m (iter_pos shr_1 n mrs) = shr_m mrs / 2 ^ Zpos n.
Proof.
  induction n as [n IH | n IH | ]; intros mrs Hm; simpl iter_pos.
  - assert (H1 : 0 <= shr_m (shr_1 mrs)).
    { rewrite shr_1_m by assumption. apply Z.div_pos; lia. }
    assert (H2 : 0 <= shr_m (iter_pos shr_1 n (shr_1 mrs))).
    { rewrite IH by assumption. apply Z.div_pos; [assumption|]. apply Z.pow_pos_nonneg; lia. }
    rewrite IH, IH, shr_1_m by assumption.
    assert (Hp : 0 < 2 ^ Zpos n) by (apply Z.pow_pos_nonneg; lia).
    rewrite !Z.div_div by lia.
    f_equal. rewrite (Pos2Z.inj_xI n).
    replace (2 * Zpos n + 1) with (1 + Zpos n + Zpos n) by lia.
    rewrite !Z.pow_add_r by lia. simpl (2 ^ 1). lia.
  - assert (H2 : 0 <= shr_m (iter_pos shr_1 n mrs)).
    { rewrite IH by assumption. apply Z.div_pos; [assumption|]. apply Z.pow_pos_nonneg; lia. }
    rewrite IH, IH by assumption.
    assert (Hp : 0 < 2 ^ Zpos n) by (apply Z.pow_pos_nonneg; lia).
    rewrite Z.div_div by lia.
    f_equal. rewrite (Pos2Z.inj_xO n).
    replace (2 * Zpos n) with (Zpos n + Zpos n) by lia.
    rewrite Z.pow_add_r by lia. reflexivity.
  - rewrite shr_1_m by assumption. reflexivity.
Qed.

Lemma shr_record_of_loc_m m l : shr_m (shr_record_of_loc m l) = m.
Proof. destruct l as [|[ | | ]]; reflexivity. Qed.

Lemma shr_m_e mrs e n :
  0 <= shr_m mrs -> 0 <= n ->
  shr_m (fst (shr mrs e n)) = shr_m mrs / 2 ^ n /\ snd (shr mrs e n) = e + n.
Proof.
  intros Hm Hn. destruct n as [|n|n]; [| |lia]; simpl.
  - rewrite Z.div_1_r. split; [reflexivity | lia].
  - split; [apply iter_shr_m; assumption | reflexivity].
Qed.

Lemma round_nearest_even_bounds m l :
  m <= round_nearest_even m l <= m + 1.
Proof.
  destruct l as [|[ | | ]]; simpl; try lia.
  destruct (Z.even m); lia.
Qed.

(** Rounding a mantissa [P] of at least 53 digits, away from the
    subnormal range: the result is canonical and not below [P]
    truncated to 53 digits. *)
Lemma round_normal s P E l :
  let D := Zpos (digits2_pos P) in
  53 <= D -> -1074 <= E + D - 53 ->
  let r := binary_round_aux prec emax s (Zpos P) E l in
  r = S754_infinity s \/
  exists m e,
    r = S754_finite s m e /\ Zpos (digits2_pos m) = 53 /\ e <= 971 /\
    ((e = E + D - 53 /\ Zpos P / 2 ^ (D - 53) <= Zpos m) \/ e = E + D - 53 + 1).
Proof.
  intros D HD HE r. subst r.
  pose proof (digits_bounds P) as [Plo Phi]. fold D in Plo, Phi.
  unfold binary_round_aux, shr_fexp.
  assert (Hshift : fexp prec emax (Zdigits2 (Zpos P) + E) - E = D - 53).
  { unfold fexp, SpecFloat.emin, prec, emax. simpl Zdigits2. fold D. lia. }
  rewrite Hshift. clearbody D.
  pose proof (shr_m_e (shr_record_of_loc (Zpos P) l) E (D - 53)) as Hshr.
  rewrite shr_record_of_loc_m in Hshr.
  destruct Hshr as [Hq He]; [lia | lia |].
  destruct (shr (shr_record_of_loc (Zpos P) l) E (D - 53)) as [mrs' e'].
  simpl in Hq, He. subst e'.
  set (q := shr_m mrs') in *.
  assert (Hpow : 2 ^ (D - 1) = 2 ^ 52 * 2 ^ (D - 53)).
  { rewrite <- Z.pow_add_r by lia. f_equal. lia. }
  assert (Hpow' : 2 ^ D = 2 ^ 53 * 2 ^ (D - 53)).
  { rewrite <- Z.pow_add_r by lia. f_equal. lia. }
  assert (Hp : 0 < 2 ^ (D - 53)) by (apply Z.pow_pos_nonneg; lia).
  assert (Hqlo : 2 ^ 52 <= q).
  { rewrite Hq. apply Z.div_le_lower_bound; lia. }
  assert (Hqhi : q < 2 ^ 53).
  { rewrite Hq. apply Z.div_lt_upper_bound; lia. }
  pose proof (round_nearest_even_bounds q (loc_of_shr_record mrs')) as [Rlo Rhi].
  destruct (round_nearest_even q (loc_of_shr_record mrs')) as [|q'|q']; [lia | | lia].
  set (e1 := E + (D - 53)) in *.
  assert (Hstage : exists n2,
             ((n2 = 0 /\ Zpos q' < 2 ^ 53) \/ (n2 = 1 /\ Zpos q' = 2 ^ 53)) /\
             fexp prec emax (Zdigits2 (Zpos q') + e1) - e1 = n2).
  { destruct (Z.eq_dec (Zpos q') (2 ^ 53)) as [Htop | Hnot].
    - exists 1. split; [right; split; [reflexivity | exact Htop]|].
      assert (Hd : Zpos (digits2_pos q') = 54)
        by (apply digits_unique; rewrite Htop; simpl; lia).
      unfold fexp, SpecFloat.emin, prec, emax. simpl Zdigits2. rewrite Hd. lia.
    - exists 0. split; [left; split; [reflexivity | lia]|].
      assert (Hd : Zpos (digits2_pos q') = 53)
        by (apply digits_unique; simpl (53 - 1); lia).
      unfold fexp, SpecFloat.emin, prec, emax. simpl Zdigits2. rewrite Hd. lia. }
  destruct Hstage as (n2 & Hcase & Hsh). rewrite Hsh.
  pose proof (shr_m_e (shr_record_of_loc (Zpos q') loc_Exact) e1 n2) as H2.
  rewrite shr_record_of_loc_m in H2.
  destruct H2 as [Hm2 He2]; [lia | lia |].
  destruct (shr (shr_record_of_loc (Zpos q') loc_Exact) e1 n2) as [mrs2 e2].
  cbn [fst snd] in Hm2, He2. subst e2.
  destruct Hcase as [[-> Hlt] | [-> Htop]].
  - rewrite Z.pow_0_r, Z.div_1_r in Hm2. rewrite Hm2.
    assert (Hd : Zpos (digits2_pos q') = 53)
      by (apply digits_unique; simpl (53 - 1); lia).
    change (emax - prec) with 971.
    destruct (e1 + 0 <=? 971) eqn:Hle; [right | left; reflexivity].
    apply Z.leb_le in Hle.
    exists q', (e1 + 0). split; [reflexivity|]. split; [exact Hd|].
    split; [exact Hle|]. left. split; [lia|]. rewrite <- Hq. lia.
  - rewrite Htop in Hm2. change (2 ^ 53 / 2 ^ 1) with (Zpos (2 ^ 52)%positive) in Hm2.
    rewrite Hm2.
    change (emax - prec) with 971.
    destruct (e1 + 1 <=? 971) eqn:Hle; [right | left; reflexivity].
    apply Z.leb_le in Hle.
    exists (2 ^ 52)%positive, (e1 + 1). split; [reflexivity|]. split; [reflexivity|].
    split; [exact Hle|]. right. lia.
Qed.

(** ** Binary64 arithmetic: integers *)

Lemma round_exact s m e :
  Zpos (digits2_pos m) = 53 -> -1074 <= e <= 971 ->
  binary_round_aux prec emax s (Zpos m) e loc_Exact = S754_finite s m e.
Proof.
  intros Hd He.
  assert (Hsh : fexp prec emax (Zdigits2 (Zpos m) + e) - e = 0).
  { unfold fexp, SpecFloat.emin, prec, emax. simpl Zdigits2. rewrite Hd. lia. }
  unfold binary_round_aux, shr_fexp. rewrite Hsh.
  cbn [shr shr_record_of_loc loc_of_shr_record round_nearest_even shr_m].
  rewrite Hsh.
  cbn [shr shr_record_of_loc loc_of_shr_record round_nearest_even shr_m].
  change (emax - prec) with 971.
  destruct (e <=? 971) eqn:Hle; [reflexivity|].
  apply Z.leb_gt in Hle. lia.
Qed.

(** The canonical form of an integer of magnitude below 2^53: its
    bits moved up to fill the 53 digits of the mantissa. *)
Lemma binary_round_small s p :
  Zpos p < 2 ^ 53 ->
  exists m,
    binary_round prec emax s p 0
    = S754_finite s m (Zpos (digits2_pos p) - 53) /\
    Zpos m = Zpos p * 2 ^ (53 - Zpos (digits2_pos p)) /\
    Zpos (digits2_pos m) = 53.
Proof.
  intro Hp. pose proof (digits_bounds p) as [Plo Phi].
  set (d := Zpos (digits2_pos p)) in *.
  assert (Hd53 : d <= 53) by (apply digits_at_most; exact Hp).
  assert (Hd1 : 1 <= d) by (subst d; lia).
  unfold binary_round, shl_align.
  fold d.
  assert (Hf : fexp prec emax (d + 0) = d - 53).
  { unfold fexp, SpecFloat.emin, prec, emax. lia. }
  rewrite Hf.
  destruct (d - 53 - 0) as [|k|k] eqn:Hk; [ | lia | ].
  - exists p. assert (d = 53) by lia.
    split; [|split].
    + rewrite round_exact; [f_equal; lia | subst d; lia | lia].
    + replace (53 - d) with 0 by lia. simpl. lia.
    + subst d. lia.
  - exists (Pos.iter xO p k).
    assert (Hm : Zpos (Pos.iter xO p k) = Zpos p * 2 ^ (53 - d)).
    { rewrite shifted_mantissa. f_equal. f_equal. lia. }
    assert (Hdm : Zpos (digits2_pos (Pos.iter xO p k)) = 53).
    { apply digits_unique. rewrite Hm. clearbody d.
      assert (Hpow : 2 ^ (53 - 1) = 2 ^ (d - 1) * 2 ^ (53 - d)).
      { rewrite <- Z.pow_add_r by lia. f_equal. lia. }
      assert (Hpow' : 2 ^ 53 = 2 ^ d * 2 ^ (53 - d)).
      { rewrite <- Z.pow_add_r by lia. f_equal. lia. }
      assert (Hpp : 0 < 2 ^ (53 - d)) by (apply Z.pow_pos_nonneg; lia).
      rewrite Hpow, Hpow'. split.
      - apply Z.mul_le_mono_nonneg_r; lia.
      - apply Z.mul_lt_mono_pos_r; lia. }
    split; [|split; assumption].
    rewrite round_exact; [reflexivity | exact Hdm | lia].
Qed.

Lemma ofZ_pos p :
  Zpos p < 2 ^ 53 ->
  exists m,
    ofZ (Zpos p) = S754_finite false m (Zpos (digits2_pos p) - 53) /\
    Zpos m = Zpos p * 2 ^ (53 - Zpos (digits2_pos p)) /\
    Zpos (digits2_pos m) = 53.
Proof. exact (binary_round_small false p). Qed.

Lemma ofZ_0 : ofZ 0 = pos_zero.
Proof. reflexivity. Qed.

(** On integers in [0, 2^53) the comparison of numbers is the
    comparison of integers. *)
Lemma leb_ofZ a b :
  0 <= a < 2 ^ 53 -> 0 <= b < 2 ^ 53 ->
  leb (ofZ a) (ofZ b) = (a <=? b).
Proof.
  intros Ha Hb.
  destruct a as [|pa|pa]; [| |lia]; destruct b as [|pb|pb]; try lia.
  - reflexivity.
  - destruct (ofZ_pos pb) as (mb & -> & _); [lia|]. reflexivity.
  - destruct (ofZ_pos pa) as (ma & -> & _); [lia|]. reflexivity.
  - destruct (ofZ_pos pa) as (ma & -> & Hma & _); [lia|].
    destruct (ofZ_pos pb) as (mb & -> & Hmb & _); [lia|].
    pose proof (digits_bounds pa) as [Alo Ahi].
    pose proof (digits_bounds pb) as [Blo Bhi].
    set (da := Zpos (digits2_pos pa)) in *.
    set (db := Zpos (digits2_pos pb)) in *.
    assert (Hda : 1 <= da) by (subst da; lia).
    assert (Hdb : 1 <= db) by (subst db; lia).
    clearbody da db.
    unfold leb, SFleb, SFcompare.
    destruct (Z.compare_spec (da - 53) (db - 53)) as [Heq | Hlt | Hgt].
    + assert (da = db) by lia. subst db.
      change (Pos.compare_cont Eq ma mb) with (Pos.compare ma mb).
      rewrite Pos2Z.inj_compare, Hma, Hmb.
      assert (Hpp : 0 < 2 ^ (53 - da)).
      { apply Z.pow_pos_nonneg; [lia|]. 
        assert (da <= 53) by (apply Z.lt_succ_r; destruct (Z.le_gt_cases da 53); [lia|];
          assert (2 ^ 53 <= 2 ^ (da - 1)) by (apply Z.pow_le_mono_r; lia); lia).
        lia. }
      rewrite <- (Zmult_compare_compat_r (Zpos pa) (Zpos pb) _ (Z.lt_gt _ _ Hpp)).
      unfold Z.leb. destruct (Zpos pa ?= Zpos pb); reflexivity.
    + assert (2 ^ da <= 2 ^ (db - 1)) by (apply Z.pow_le_mono_r; lia).
      symmetry. apply Z.leb_le. lia.
    + assert (2 ^ db <= 2 ^ (da - 1)) by (apply Z.pow_le_mono_r; lia).
      symmetry. apply Z.leb_gt. lia.
Qed.

(** ** Binary64 arithmetic: the constants of the growth format *)

Lemma decimal_0_05 : decimal 5 100 = S754_finite false 7205759403792794 (-57).
Proof. vm_compute. reflexivity. Qed.

Lemma decimal_0_1 : decimal 1 10 = S754_finite false 7205759403792794 (-56).
Proof. vm_compute. reflexivity. Qed.

Lemma ofZ_10 : ofZ 10 = S754_finite false 5629499534213120 (-49).
Proof. vm_compute. reflexivity. Qed.

(** A canonical number at or above 0.05 is normal, with exponent -57
    at least and, at that exponent, a mantissa at or above that of
    0.05. *)
Lemma at_least_0_05 m e :
  is_binary64 (S754_finite false m e) ->
  geb (S754_finite false m e) (decimal 5 100) = true ->
  Zpos (digits2_pos m) = 53 /\ e <= 971 /\
  (-56 <= e \/ (e = -57 /\ 7205759403792794 <= Zpos m)).
Proof.
  unfold is_binary64, valid_binary, bounded, canonical_mantissa.
  rewrite decimal_0_05. unfold geb, SFleb, SFcompare.
  intros Hv Hge. apply andb_true_iff in Hv. destruct Hv as [Hc He].
  apply Z.eqb_eq in Hc. apply Z.leb_le in He.
  change (emax - prec) with 971 in He.
  unfold fexp, SpecFloat.emin, prec, emax in Hc.
  destruct (Z.compare_spec (-57) e) as [Heq | Hlt | Hgt].
  - subst e. split; [lia|]. split; [lia|]. right. split; [reflexivity|].
    change (Pos.compare_cont Eq 7205759403792794 m)
      with (Pos.compare 7205759403792794 m) in Hge.
    rewrite Pos2Z.inj_compare in Hge.
    destruct (Z.compare_spec 7205759403792794 (Zpos m)); try discriminate; lia.
  - split; [lia|]. split; [lia|]. left. lia.
  - discriminate.
Qed.

(** Ten times a number at or above 0.05 is at or above 0.5. *)
Lemma mul_10_from_0_05 m e :
  is_binary64 (S754_finite false m e) ->
  geb (S754_finite false m e) (decimal 5 100) = true ->
  normal_from (-53) (mul (S754_finite false m e) (ofZ 10)).
Proof.
  intros Hv Hge.
  destruct (at_least_0_05 m e Hv Hge) as (Hd & He & Hcase).
  pose proof (digits_bounds m) as [Mlo _]. rewrite Hd in Mlo. simpl (53 - 1) in Mlo.
  rewrite ofZ_10. unfold mul, SFmul. simpl xorb.
  set (P := (m * 5629499534213120)%positive).
  assert (HP : Zpos P = Zpos m * 5629499534213120) by (subst P; apply Pos2Z.inj_mul).
  assert (HD : 104 < Zpos (digits2_pos P)).
  { apply digits_at_least; [lia|]. rewrite HP.
    change (2 ^ 104) with (2 ^ 52 * 4503599627370496). lia. }
  assert (HD' : e = -57 -> 105 < Zpos (digits2_pos P)).
  { intros ->. destruct Hcase as [? | [_ Hm]]; [lia|].
    apply digits_at_least; [lia|]. rewrite HP.
    change (2 ^ 105) with 40564819207303340847894502572032. lia. }
  pose proof (round_normal false P (e + -49) loc_Exact) as Hr.
  cbv zeta in Hr.
  destruct Hr as [Hr | (m' & e' & Hr & Hd' & He' & Hcase')]; [lia | lia | |].
  - left. exact Hr.
  - right. exists m', e'. split; [exact Hr|]. split; [exact Hd'|].
    destruct (Z.eq_dec e (-57)) as [E57 | N57].
    + specialize (HD' E57). lia.
    + lia.
Qed.

(** Rounding a number at or above 0.5 to an integer gives 1, or a
    number at or above 2. *)
Lemma round_from_0_5 y :
  normal_from (-53) y ->
  Math_round y = ofZ 1 \/ normal_from (-51) (Math_round y).
Proof.
  intros [-> | (m & e & -> & Hd & He)].
  - right. left. reflexivity.
  - unfold Math_round.
    destruct (0 <=? e) eqn:Hsign.
    + apply Z.leb_le in Hsign. right. right. exists m, e. repeat split; try assumption; lia.
    + apply Z.leb_gt in Hsign.
      pose proof (digits_bounds m) as [Mlo Mhi]. rewrite Hd in Mlo, Mhi.
      simpl (53 - 1) in Mlo.
      set (den := 2 ^ (- e)).
      assert (Hden2 : 2 <= den).
      { subst den. change 2 with (2 ^ 1) at 1. apply Z.pow_le_mono_r; lia. }
      assert (Hden53 : den <= 2 ^ 53).
      { subst den. apply Z.pow_le_mono_r; lia. }
      cbn [cond_Zopp].
      set (r := (2 * Zpos m + den) / (2 * den)).
      assert (Hr1 : 1 <= r).
      { subst r. apply Z.div_le_lower_bound; [lia|].
        change (2 ^ 53) with (2 * 2 ^ 52) in Hden53. lia. }
      assert (Hr53 : r < 2 ^ 53).
      { subst r. apply Z.div_lt_upper_bound; [lia|].
        change (2 ^ 53) with 9007199254740992 in *. nia. }
      destruct (r =? 0) eqn:Hr0; [apply Z.eqb_eq in Hr0; lia|].
      clearbody r. destruct r as [|p|p]; try lia.
      destruct (Z.eq_dec (Zpos p) 1) as [H1 | H1].
      * left. rewrite H1. reflexivity.
      * right. right.
        destruct (ofZ_pos p Hr53) as (mr & Hofz & _ & Hdr).
        exists mr, (Zpos (digits2_pos p) - 53).
        split; [exact Hofz|]. split; [exact Hdr|].
        assert (1 < Zpos (digits2_pos p)) by (apply digits_at_least; simpl; lia).
        assert (Zpos (digits2_pos p) <= 53) by (apply digits_at_most; exact Hr53).
        lia.
Qed.

(** A tenth of a number at or above 2 is above 0.1. *)
Lemma div_10_from_2 x :
  normal_from (-51) x -> normal_from (-55) (div x (ofZ 10)).
Proof.
  intros [-> | (m & e & -> & Hd & He)].
  - left. reflexivity.
  - pose proof (digits_bounds m) as [Mlo Mhi]. rewrite Hd in Mlo, Mhi.
    simpl (53 - 1) in Mlo.
    rewrite ofZ_10. unfold div, SFdiv, SFdiv_core_binary.
    simpl Zdigits2. rewrite Hd.
    change (Zpos (digits2_pos 5629499534213120)) with 53.
    assert (He' : Z.min (fexp prec emax (53 + e - (53 + -49))) (e - -49) = e - 4).
    { unfold fexp, SpecFloat.emin, prec, emax. lia. }
    rewrite He'.
    replace (e - -49 - (e - 4)) with 53 by lia.
    rewrite Z.shiftl_mul_pow2 by lia.
    set (a := Zpos m * 2 ^ 53).
    pose proof (Z_div_mod a 5629499534213120) as Hdm.
    unfold Z.div_eucl at 1 in Hdm. fold (Z.div_eucl a 5629499534213120) in Hdm.
    destruct (Z.div_eucl a 5629499534213120) as [q r].
    destruct Hdm as [Ha Hr]; [lia|].
    assert (Hq : 2 ^ 52 <= q).
    { subst a. change (2 ^ 53) with 9007199254740992 in *.
      change (2 ^ 52) with 4503599627370496 in *. lia. }
    destruct q as [|P|P]; try (change (2 ^ 52) with 4503599627370496 in Hq; lia).
    assert (HD : 52 < Zpos (digits2_pos P)) by (apply digits_at_least; lia).
    pose proof (round_normal false P (e - 4) (new_location 5629499534213120 r)) as Hn.
    cbv zeta in Hn. simpl xorb.
    destruct Hn as [Hn | (m' & e' & Hn & Hd' & He2 & Hcase)]; [lia | lia | |].
    + left. exact Hn.
    + right. exists m', e'. split; [exact Hn|]. split; [exact Hd'|]. lia.
Qed.

Lemma normal_from_above_0_1 z :
  normal_from (-55) z -> geb z (decimal 1 10) = true /\ is_zero z = false.
Proof.
  rewrite decimal_0_1.
  intros [-> | (m & e & -> & _ & He)]; split; try reflexivity.
  unfold geb, SFleb, SFcompare.
  destruct (Z.compare_spec (-56) e); [lia | reflexivity | lia].
Qed.

(** The rounded magnitude of a rate outside the dead zone. *)
Lemma roundRawNum_from_0_05 r :
  is_binary64 r ->
  geb (Math_abs r) (decimal 5 100) = true ->
  geb (roundRawNum (Math_abs r)) (decimal 1 10) = true /\
  is_zero (roundRawNum (Math_abs r)) = false.
Proof.
  intros Hv Hge.
  destruct r as [s | s | | s m e]; try (rewrite decimal_0_05 in Hge; discriminate).
  - split; reflexivity.
  - simpl Math_abs in *. unfold roundRawNum.
    assert (Hv' : is_binary64 (S754_finite false m e)) by exact Hv.
    destruct (round_from_0_5 _ (mul_10_from_0_05 m e Hv' Hge)) as [-> | Hn].
    + split; reflexivity.
    + apply normal_from_above_0_1, div_10_from_2. exact Hn.
Qed.

(** ** The digits of a number *)

Lemma digit_char_nonzero z : 1 <= z < 10 -> digit_char z <> "0"%char.
Proof.
  intros Hz.
  assert (Hcases : z = 1 \/ z = 2 \/ z = 3 \/ z = 4 \/ z = 5 \/
                   z = 6 \/ z = 7 \/ z = 8 \/ z = 9) by lia.
  repeat (destruct Hcases as [-> | Hcases]; [vm_compute; discriminate|]).
  subst z. vm_compute. discriminate.
Qed.

Lemma digits_from_nonzero fuel :
  forall z acc, 1 <= z < 2 ^ Z.of_nat fuel ->
  starts_nonzero (digits_from fuel z acc).
Proof.
  induction fuel as [|fuel IH]; intros z acc Hz.
  - simpl in Hz. lia.
  - simpl digits_from.
    destruct (z <? 10) eqn:Hlt.
    + apply Z.ltb_lt in Hlt. eexists _, _. split; [reflexivity|].
      rewrite Z.mod_small by lia. apply digit_char_nonzero. lia.
    + apply Z.ltb_ge in Hlt. apply IH.
      rewrite Nat2Z.inj_succ, Z.pow_succ_r in Hz by lia.
      split.
      * apply Z.div_le_lower_bound; lia.
      * apply Z.div_lt_upper_bound; lia.
Qed.

Lemma Z_digits_nonzero z : 1 <= z -> starts_nonzero (Z_digits z).
Proof.
  intro Hz. unfold Z_digits. apply digits_from_nonzero.
  split; [exact Hz|].
  rewrite Nat2Z.inj_succ, Z2Nat.id by apply Z.log2_nonneg.
  apply Z.log2_spec. lia.
Qed.

Lemma layout_not_zero ds n : starts_nonzero ds -> layout ds n <> "0".
Proof.
  intros (c & rest & -> & Hc). unfold layout.
  set (k := Z.of_nat (String.length (String c rest))).
  destruct ((k <=? n) && (n <=? 21)).
  { cbn [append]. intro H. injection H as H _. exact (Hc H). }
  destruct ((0 <? n) && (n <=? 21)) eqn:Hn.
  { apply andb_true_iff in Hn. destruct Hn as [Hn _]. apply Z.ltb_lt in Hn.
    destruct (Z.to_nat n) as [|n'] eqn:En; [lia|].
    cbn [substring append]. intro H. injection H as H _. exact (Hc H). }
  destruct ((-6 <? n) && (n <=? 0)).
  { cbn [append]. discriminate. }
  destruct (k =? 1); cbn [substring append]; intro H; injection H as H _;
    exact (Hc H).
Qed.

Lemma shortest_positive fuel x vn vd n :
  forall k s n', 1 <= k ->
  shortest fuel x vn vd n k = Some (s, n') -> 1 <= s.
Proof.
  induction fuel as [|fuel IH]; intros k s n' Hk; cbn [shortest];
    [discriminate|].
  destruct (find (reads_back x k) (candidates vn vd n k)) as [c|] eqn:Hfind.
  - intro H. injection H as ->.
    apply find_some in Hfind. destruct Hfind as [_ Hc].
    unfold reads_back in Hc.
    apply andb_true_iff in Hc. destruct Hc as [Hc _].
    apply andb_true_iff in Hc. destruct Hc as [Hc _].
    apply Z.leb_le in Hc.
    assert (0 < 10 ^ (k - 1)) by (apply Z.pow_pos_nonneg; lia). lia.
  - apply IH. lia.
Qed.

(** Only a zero is displayed as "0". *)
Lemma Number_toString_not_zero x :
  is_zero x = false -> Number_toString x <> "0".
Proof.
  destruct x as [s | s | | s m e]; cbn [is_zero Number_toString];
    try discriminate.
  - destruct s; discriminate.
  - intros _. destruct s; [cbn [append]; discriminate|].
    cbn [append]. unfold positive_toString.
    match goal with
    | |- context [shortest ?f ?x ?vn ?vd ?n ?k] =>
        destruct (shortest f x vn vd n k) as [[d n']|] eqn:Hs
    end; [|discriminate].
    apply layout_not_zero, Z_digits_nonzero.
    exact (shortest_positive _ _ _ _ _ 1 d n' ltac:(lia) Hs).
Qed.

Lemma before_GB t : t ++ " GB" = "0 GB" -> t = "0".
Proof.
  destruct t as [|c t]; simpl; [discriminate|].
  intro H. injection H as -> H.
  destruct t as [|c1 t]; [reflexivity|]. simpl in H. injection H as _ H.
  destruct t as [|c2 t]; [discriminate|]. simpl in H. injection H as _ H.
  destruct t as [|c3 t]; [discriminate|]. simpl in H. injection H as _ H.
  destruct t; discriminate.
Qed.

Lemma leb_not_ltb mc ec r :
  SFleb (S754_finite false mc ec) (SFabs r) = true ->
  SFltb (SFabs r) (S754_finite false mc ec) = false.
Proof.
  unfold SFleb, SFltb.
  destruct r as [s | s | | s m e]; cbn [SFabs SFcompare];
    try discriminate; try reflexivity.
  rewrite (Z.compare_antisym e ec).
  destruct (e ?= ec) eqn:He; cbn [CompOpp]; try discriminate;
    try reflexivity.
  change (Pos.compare_cont Eq mc m) with (Pos.compare mc m).
  change (Pos.compare_cont Eq m mc) with (Pos.compare m mc).
  rewrite (Pos.compare_antisym m mc).
  destruct (m ?= mc)%positive; cbn [CompOpp]; try discriminate; reflexivity.
Qed.

Lemma not_below_dead_zone r :
  geb (Math_abs r) (decimal 5 100) = true ->
  ltb (Math_abs r) (decimal 5 100) = false.
Proof.
  rewrite decimal_0_05. unfold geb, ltb, Math_abs. apply leb_not_ltb.
Qed.

Lemma abs_opp r : Math_abs (SFopp r) = Math_abs r.
Proof. destruct r; reflexivity. Qed.

(** C10. No signed zero in the growth string.  For every rate r (a
    binary64 value) with |r| >= 0.05, the displayed magnitude
    round(|r| * 10) / 10 is at least 0.1, so the growth string is
    neither "+ 0 GB" nor "- 0 GB"; and outside the dead zone the
    string is a sign prefix followed by a text that depends on |r|
    only, the same for r and -r. *)
Theorem growth_never_signed_zero :
  (forall r,
      is_binary64 r ->
      geb (Math_abs r) (decimal 5 100) = true ->
      geb (roundRawNum (Math_abs r)) (decimal 1 10) = true /\
      formatGrowthGB r <> "+ 0 GB" /\
      formatGrowthGB r <> "- 0 GB") /\
  (forall r,
      ltb (Math_abs r) (decimal 5 100) = false ->
      (formatGrowthGB r = "+ " ++ magnitude_text r \/
       formatGrowthGB r = "- " ++ magnitude_text r) /\
      magnitude_text (SFopp r) = magnitude_text r).
Proof.
  split.
  - intros r Hv Hge.
    destruct (roundRawNum_from_0_05 r Hv Hge) as [Hmag Hnz].
    split; [exact Hmag|].
    pose proof (Number_toString_not_zero _ Hnz) as Hstr.
    rewrite (formatGrowthGB_signed r (not_below_dead_zone r Hge)).
    unfold magnitude_text.
    split; destruct (gtb r pos_zero); cbn [append]; intro H;
      try discriminate; injection H as H; exact (Hstr (before_GB _ H)).
  - intros r Hd. split.
    + rewrite (formatGrowthGB_signed r Hd).
      destruct (gtb r pos_zero); [left | right]; reflexivity.
    + unfold magnitude_text. rewrite abs_opp. reflexivity.
Qed.

Lemma growth_never_signed_zero_witness :
  let r := decimal (-5) 100 in
  is_binary64 r /\
  geb (Math_abs r) (decimal 5 100) = true /\
  ltb (Math_abs r) (decimal 5 100) = false /\
  geb (roundRawNum (Math_abs r)) (decimal 1 10) = true /\
  formatGrowthGB r <> "+ 0 GB" /\
  formatGrowthGB r <> "- 0 GB" /\
  (formatGrowthGB r = "+ " ++ magnitude_text r \/
   formatGrowthGB r = "- " ++ magnitude_text r) /\
  magnitude_text (SFopp r) = magnitude_text r.
Proof.
  intro r.
  assert (Hv : is_binary64 r) by (vm_compute; reflexivity).
  assert (Hge : geb (Math_abs r) (decimal 5 100) = true) by (vm_compute; reflexivity).
  assert (Hd : ltb (Math_abs r) (decimal 5 100) = false) by (vm_compute; reflexivity).
  destruct (proj1 growth_never_signed_zero r Hv Hge) as (H1 & H2 & H3).
  destruct (proj2 growth_never_signed_zero r Hd) as (H4 & H5).
  repeat split; assumption.
Defined.

Lemma before_percent t : t ++ "%" = "0%" -> t = "0".
Proof.
  destruct t as [|c t]; cbn [append]; [discriminate|].
  intro H. injection H as -> H.
  destruct t as [|c1 t]; [reflexivity|]. cbn [append] in H. injection H as _ H.
  destruct t; discriminate.
Qed.

(** X2. A percentage is displayed as "0%" exactly when the rounded
    number is a zero (of either sign): no other number, and neither
    NaN nor an infinity, has that text. *)
Theorem percent_zero_only_for_zero n :
  formatIntWithPercent n = "0%" <-> is_zero (roundInt n) = true.
Proof.
  unfold formatIntWithPercent. split.
  - intro H. apply before_percent in H.
    destruct (is_zero (roundInt n)) eqn:Hz; [reflexivity|].
    destruct (Number_toString_not_zero _ Hz H).
  - destruct (roundInt n); cbn [is_zero]; try discriminate.
    intros _. reflexivity.
Qed.

(** ** The sample a cycle adds *)

Lemma filter_keeps_new now l x :
  timestamp x = now ->
  filter (fun m => now - RETENTION <=? timestamp m) (l ++ [x])%list =
  (filter (fun m => now - RETENTION <=? timestamp m) l ++ [x])%list.
Proof.
  intro Hx. rewrite filter_app. cbn [filter]. rewrite Hx.
  replace (now - RETENTION <=? now) with true; [reflexivity|].
  symmetry. apply Z.leb_le. unfold RETENTION. lia.
Qed.




Lemma last_values_snoc l x :
  last (values_of (l ++ [x])%list) pos_zero = value x.
Proof.
  unfold values_of. rewrite map_app. cbn [map].
  apply last_last.
Qed.


Lemma update_saved now cpuNow ramNow diskNow diskSizeGB s :
  snd (fst (update now cpuNow ramNow diskNow diskSizeGB s)) =
  saveDataToFile (snd (update now cpuNow ramNow diskNow diskSizeGB s)).
Proof.
  unfold update, bind, modify, gets, ret.
  cbn [fst snd set_cpu set_ram cpu ram disk diskGrowth].
  destruct (last_sample (disk s)) as [lastDisk|]; [|reflexivity].
  match goal with |- context [gtb ?a ?b] => destruct (gtb a b) end;
    reflexivity.
Qed.

(** ** How many samples the store holds *)

Lemma spaced_filter f l : spaced l -> spaced (filter f l).
Proof.
  induction l as [|m l IH]; cbn [spaced filter]; [trivial|].
  intros [Hm Hl]. destruct (f m); [|exact (IH Hl)].
  cbn [spaced]. split; [|exact (IH Hl)].
  apply Forall_forall. intros m' Hin.
  apply filter_In in Hin. destruct Hin as [Hin _].
  exact (proj1 (Forall_forall _ _) Hm m' Hin).
Qed.

Lemma spaced_snoc l x :
  spaced l ->
  Forall (fun m => timestamp m + INTERVAL <= timestamp x) l ->
  spaced (l ++ [x])%list.
Proof.
  induction l as [|m l IH]; cbn [spaced app]; intros Hs Hx.
  - split; constructor.
  - destruct Hs as [Hm Hl]. inversion Hx as [|? ? Hmx Hlx]; subst.
    split; [|exact (IH Hl Hlx)].
    apply Forall_app. split; [exact Hm|]. constructor; [exact Hmx|constructor].
Qed.

Lemma paced_step t now l x :
  paced t l -> t + INTERVAL <= now -> timestamp x = now ->
  paced now (filter (fun m => now - RETENTION <=? timestamp m) (l ++ [x])%list).
Proof.
  intros [Hs Hb] Ht Hx. split.
  - apply spaced_filter, spaced_snoc; [exact Hs|].
    apply Forall_forall. intros m Hin.
    pose proof (proj1 (Forall_forall _ _) Hb m Hin) as Hm. cbv beta in Hm. lia.
  - apply Forall_forall. intros m Hin.
    apply filter_In in Hin. destruct Hin as [Hin Hkeep].
    apply Z.leb_le in Hkeep. split; [exact Hkeep|].
    apply in_app_or in Hin. destruct Hin as [Hin | [<- | []]]; [|lia].
    pose proof (proj1 (Forall_forall _ _) Hb m Hin) as Hm. cbv beta in Hm.
    unfold INTERVAL in Ht. lia.
Qed.

Lemma update_paced t now cpuNow ramNow diskNow diskSizeGB s :
  store_paced t s -> t + INTERVAL <= now ->
  store_paced now (snd (update now cpuNow ramNow diskNow diskSizeGB s)).
Proof.
  intros (Hc & Hr & Hd) Ht. unfold store_paced.
  rewrite update_cpu, update_ram, update_disk.
  repeat split; eapply paced_step; eauto.
Qed.

Lemma run_cycles_cons c cycles s :
  snd (run_cycles (c :: cycles) s) =
  snd (run_cycles cycles
         (snd (update (c_now c) (c_cpu c) (c_ram c) (c_disk c) (c_diskSizeGB c) s))).
Proof.
  unfold run_cycles. cbn [forEach]. unfold bind at 1.
  rewrite <- run_cycle_store. destruct (run_cycle c s) as [u s1]. reflexivity.
Qed.

Lemma run_cycles_paced cycles :
  forall t s,
  store_paced t s ->
  match cycles with [] => True | c :: _ => t + INTERVAL <= c_now c end ->
  ticks_apart INTERVAL cycles ->
  exists t', store_paced t' (snd (run_cycles cycles s)).
Proof.
  induction cycles as [|c cycles IH]; intros t s Hs Hfirst Hticks.
  - exists t. exact Hs.
  - rewrite run_cycles_cons. destruct Hticks as [Hnext Hticks].
    apply (IH (c_now c)); [|exact Hnext|exact Hticks].
    exact (update_paced t _ _ _ _ _ s Hs Hfirst).
Qed.

Lemma spaced_span l :
  forall lo hi,
  spaced l -> Forall (fun m => lo <= timestamp m <= hi) l ->
  INTERVAL * (Z.of_nat (List.length l) - 1) <= Z.max 0 (hi - lo) .
Proof.
  induction l as [|m l IH]; intros lo hi Hs Hb.
  - cbn [List.length]. unfold INTERVAL. lia.
  - destruct Hs as [Hm Hl]. inversion Hb as [|? ? Hmb Hlb]; subst.
    assert (Hrest : Forall (fun m' => timestamp m + INTERVAL <= timestamp m' <= hi) l).
    { apply Forall_forall. intros m' Hin.
      pose proof (proj1 (Forall_forall _ _) Hm m' Hin) as H1.
      pose proof (proj1 (Forall_forall _ _) Hlb m' Hin) as H2.
      cbv beta in H1, H2. lia. }
    specialize (IH (timestamp m + INTERVAL) hi Hl Hrest).
    cbn [List.length]. rewrite Nat2Z.inj_succ.
    destruct l as [|m1 l].
    + cbn [List.length]. lia.
    + inversion Hrest as [|? ? Hm1 _]; subst.
      unfold INTERVAL in *. lia.
Qed.

Lemma paced_count t l : paced t l -> (List.length l <= 61)%nat.
Proof.
  intros [Hs Hb].
  pose proof (spaced_span l (t - RETENTION) t Hs Hb) as H.
  unfold INTERVAL, RETENTION in H. lia.
Qed.

Lemma default_store_paced t : store_paced t default_store.
Proof. repeat split; constructor. Qed.

(** X5. The store stays small under a regular timer: when the clock
    readings of consecutive cycles are at least one sampling interval
    (60,000 ms) apart, then after any run of cycles from the initial
    store no series holds more than 61 samples. *)
Theorem sample_count_bounded cycles :
  ticks_apart INTERVAL cycles ->
  let s := snd (run_cycles cycles default_store) in
  (List.length (cpu s) <= 61)%nat /\
  (List.length (ram s) <= 61)%nat /\
  (List.length (disk s) <= 61)%nat.
Proof.
  intro Hticks. cbv zeta.
  destruct (run_cycles_paced cycles
              (match cycles with [] => 0 | c :: _ => c_now c - INTERVAL end)
              default_store (default_store_paced _)) as (t' & Hc & Hr & Hd).
  - destruct cycles; [exact I | lia].
  - exact Hticks.
  - repeat split; eapply paced_count; eassumption.
Qed.

Lemma sample_count_bounded_witness :
  let cycles :=
    [ {| c_now := 0; c_cpu := ofZ 10; c_ram := ofZ 20; c_disk := ofZ 30;
         c_diskSizeGB := ofZ 100 |};
      {| c_now := 60000; c_cpu := ofZ 11; c_ram := ofZ 21; c_disk := ofZ 31;
         c_diskSizeGB := ofZ 100 |} ] in
  ticks_apart INTERVAL cycles /\
  let s := snd (run_cycles cycles default_store) in
  (List.length (cpu s) <= 61)%nat /\
  (List.length (ram s) <= 61)%nat /\
  (List.length (disk s) <= 61)%nat.
Proof.
  intro cycles.
  assert (Hticks : ticks_apart INTERVAL cycles).
  { cbn [ticks_apart cycles c_now]. unfold INTERVAL. repeat split; lia. }
  split; [exact Hticks|].
  exact (sample_count_bounded cycles Hticks).
Defined.

(** ** Loading a snapshot *)

Section LoadBehaviour.

Variable StringToNumber : string -> number.

Lemma filter_fresh_null cutoff elems :
  In JNull elems -> filter_fresh StringToNumber cutoff elems = None.
Proof.
  induction elems as [|m l IH]; intro Hin; [destruct Hin|].
  cbn [filter_fresh]. destruct Hin as [-> | Hin]; [reflexivity|].
  rewrite (IH Hin). destruct (fresh StringToNumber cutoff m); reflexivity.
Qed.

Lemma purge_properties_null cutoff props :
  forall key elems,
  get_prop key props = Some (JArr elems) ->
  String.eqb key "diskGrowth" = false ->
  In JNull elems ->
  purge_properties StringToNumber cutoff props = None.
Proof.
  induction props as [|[k v] rest IH]; intros key elems Hget Hkey Hin;
    [discriminate|].
  cbn [get_prop] in Hget. cbn [purge_properties].
  destruct (String.eqb k key) eqn:Hk.
  - apply String.eqb_eq in Hk. subst k. injection Hget as ->.
    unfold purge_property. rewrite Hkey. cbn [negb].
    rewrite (filter_fresh_null cutoff elems Hin). reflexivity.
  - rewrite (IH key elems Hget Hkey Hin).
    destruct (purge_property StringToNumber cutoff k v); reflexivity.
Qed.

Lemma purge_properties_verbatim cutoff props :
  Forall (fun kv => isArray (snd kv) = false \/ fst kv = "diskGrowth") props ->
  purge_properties StringToNumber cutoff props = Some props.
Proof.
  induction props as [|[k v] rest IH]; intro H; [reflexivity|].
  inversion H as [|? ? Hkv Hrest]; subst.
  cbn [purge_properties]. rewrite (IH Hrest).
  cbn [fst snd] in Hkv.
  assert (Hv : purge_property StringToNumber cutoff k v = Some v).
  { destruct Hkv as [Hv | ->].
    - destruct v; try reflexivity. discriminate.
    - destruct v; reflexivity. }
  rewrite Hv. reflexivity.
Qed.

(** C5. Snapshot decode fallback, as the code has it.  A load leaves
    the store as it was (at startup: the empty store), without raising
    an error, when the data file is absent, when its text is not
    JSON, when the text is the JSON null, and when some array-valued
    property other than diskGrowth holds a null element (reading its
    timestamp throws).  A JSON object of another schema is no such
    failure: when none of its properties holds an array (a property
    named diskGrowth apart), it replaces the store exactly as parsed,
    whatever its keys are. *)
Theorem load_failure_keeps_store now store0 :
  loadDataFromFile StringToNumber None now store0 = store0 /\
  (forall raw,
      loadDataFromFile StringToNumber (Some (NotJson raw)) now store0 = store0) /\
  loadDataFromFile StringToNumber (Some (JsonText JNull)) now store0 = store0 /\
  (forall props key elems,
      get_prop key props = Some (JArr elems) ->
      String.eqb key "diskGrowth" = false ->
      In JNull elems ->
      loadDataFromFile StringToNumber (Some (JsonText (JObj props))) now store0
      = store0) /\
  (forall props,
      Forall (fun kv => isArray (snd kv) = false \/ fst kv = "diskGrowth") props ->
      loadDataFromFile StringToNumber (Some (JsonText (JObj props))) now store0
      = JObj props).
Proof.
  split; [reflexivity|]. split; [reflexivity|]. split; [reflexivity|]. split.
  - intros props key elems Hget Hkey Hin.
    unfold loadDataFromFile, JSON_parse, purge_parsed.
    rewrite (purge_properties_null _ props key elems Hget Hkey Hin).
    reflexivity.
  - intros props Hprops.
    unfold loadDataFromFile, JSON_parse, purge_parsed.
    rewrite (purge_properties_verbatim _ props Hprops). reflexivity.
Qed.

(** X7. A load checks no schema: a JSON object none of whose
    properties holds an array (a property named diskGrowth apart, which
    is never filtered) replaces the store exactly as parsed, whatever
    its keys are; so does a JSON number, string or boolean. *)
Theorem load_adopts_unchecked_document now store0 :
  (forall props,
      Forall (fun kv => isArray (snd kv) = false \/ fst kv = "diskGrowth") props ->
      loadDataFromFile StringToNumber (Some (JsonText (JObj props))) now store0
      = JObj props) /\
  (forall x, loadDataFromFile StringToNumber (Some (JsonText (JNum x))) now store0
             = JNum x) /\
  (forall str, loadDataFromFile StringToNumber (Some (JsonText (JStr str))) now store0
               = JStr str) /\
  (forall b, loadDataFromFile StringToNumber (Some (JsonText (JBool b))) now store0
             = JBool b).
Proof.
  split; [|repeat split].
  intros props Hprops.
  unfold loadDataFromFile, JSON_parse, purge_parsed.
  rewrite (purge_properties_verbatim _ props Hprops). reflexivity.
Qed.

End LoadBehaviour.

Lemma load_failure_keeps_store_witness :
  loadDataFromFile (fun _ => NaN)
    (Some (JsonText (JObj [("cpu", JArr [JNull]); ("diskGrowth", JNum pos_zero)])))
    0 (of_store default_store)
  = of_store default_store /\
  loadDataFromFile (fun _ => NaN)
    (Some (JsonText (JObj [("version", JNum (ofZ 2))]))) 0 (of_store default_store)
  = JObj [("version", JNum (ofZ 2))].
Proof.
  split.
  - refine (proj1 (proj2 (proj2 (proj2
      (load_failure_keeps_store (fun _ => NaN) 0 (of_store default_store)))))
      _ "cpu" [JNull] _ _ _).
    + reflexivity.
    + reflexivity.
    + left. reflexivity.
  - apply (proj2 (proj2 (proj2 (proj2
      (load_failure_keeps_store (fun _ => NaN) 0 (of_store default_store)))))).
    constructor; [left; reflexivity | constructor].
Defined.

(** A snapshot of another schema is not taken for a failure: a JSON
    object whose cpu field is a string and whose other series are
    missing replaces the empty store as it is. *)
Lemma schema_mismatch_counterexample :
  let doc := JObj [("version", JNum (ofZ 2)); ("cpu", JStr "n/a")] in
  let loaded :=
    loadDataFromFile (fun _ => NaN) (Some (JsonText doc)) 0
      (of_store default_store) in
  loaded = doc /\
  field "cpu" loaded = Some (JStr "n/a") /\
  field "ram" loaded = None /\
  field "cpu" (of_store default_store) = Some (JArr []) /\
  field "ram" (of_store default_store) = Some (JArr []).
Proof. vm_compute. repeat split. Qed.

Lemma load_adopts_unchecked_document_witness :
  loadDataFromFile (fun _ => NaN)
    (Some (JsonText (JObj [("uptime", JStr "3 days")]))) 0 (of_store default_store)
  = JObj [("uptime", JStr "3 days")].
Proof.
  apply (proj1 (load_adopts_unchecked_document (fun _ => NaN) 0
                  (of_store default_store))).
  constructor; [left; reflexivity | constructor].
Defined.

(** ** Saving and loading back *)

Section RoundTrip.

Variable StringToNumber : string -> number.

Lemma ofZ_finite t : 0 <= t < 2 ^ 53 -> written (JNum (ofZ t)) = JNum (ofZ t).
Proof.
  intro Ht. destruct t as [|p|p]; [reflexivity| |lia].
  destruct (ofZ_pos p) as (m & -> & _); [lia|]. reflexivity.
Qed.

Lemma written_sample m :
  is_finite (value m) = true -> 0 <= timestamp m < 2 ^ 53 ->
  written (of_sample m) =
  of_sample {| timestamp := timestamp m; value := unsigned_zero (value m) |}.
Proof.
  intros Hv Ht. unfold of_sample. cbn [timestamp value].
  transitivity (JObj [("timestamp", written (JNum (ofZ (timestamp m))));
                      ("value", written (JNum (value m)))]); [reflexivity|].
  rewrite (ofZ_finite _ Ht). cbn [written]. rewrite Hv. unfold unsigned_zero.
  destruct (is_zero (value m)); reflexivity.
Qed.

Lemma written_samples l :
  finite_series l -> timestamps_in_range l ->
  map written (map of_sample l) = map of_sample (unsigned_zeros l).
Proof.
  unfold finite_series, timestamps_in_range, unsigned_zeros.
  induction l as [|m l IH]; intros Hv Ht; [reflexivity|].
  inversion Hv as [|? ? Hm Hl]; subst. inversion Ht as [|? ? Hmt Hlt]; subst.
  cbn [map]. rewrite (IH Hl Hlt), (written_sample m Hm Hmt). reflexivity.
Qed.

Lemma fresh_sample cutoff m :
  0 <= cutoff < 2 ^ 53 -> 0 <= timestamp m < 2 ^ 53 ->
  fresh StringToNumber (ofZ cutoff) (of_sample m) = Some (cutoff <=? timestamp m).
Proof.
  intros Hc Ht. unfold of_sample, fresh. cbn [get_prop String.eqb Ascii.eqb Bool.eqb].
  cbn [ToNumber option_map]. unfold geb. f_equal.
  exact (leb_ofZ cutoff (timestamp m) Hc Ht).
Qed.

Lemma filter_fresh_samples cutoff l :
  0 <= cutoff < 2 ^ 53 -> timestamps_in_range l ->
  filter_fresh StringToNumber (ofZ cutoff) (map of_sample l) =
  Some (map of_sample (filter (fun m => cutoff <=? timestamp m) l)).
Proof.
  intros Hc. unfold timestamps_in_range.
  induction l as [|m l IH]; intro Ht; [reflexivity|].
  inversion Ht as [|? ? Hm Hl]; subst.
  cbn [map filter_fresh filter].
  rewrite (fresh_sample cutoff m Hc Hm), (IH Hl).
  destruct (cutoff <=? timestamp m); reflexivity.
Qed.

Lemma unsigned_zeros_in_range l :
  timestamps_in_range l -> timestamps_in_range (unsigned_zeros l).
Proof.
  unfold timestamps_in_range, unsigned_zeros. intro H.
  apply Forall_map. exact H.
Qed.

Lemma filter_unsigned_zeros cutoff l :
  filter (fun m => cutoff <=? timestamp m) (unsigned_zeros l) =
  unsigned_zeros (filter (fun m => cutoff <=? timestamp m) l).
Proof.
  unfold unsigned_zeros. induction l as [|m l IH]; [reflexivity|].
  cbn [map filter timestamp]. destruct (cutoff <=? timestamp m);
    cbn [map]; rewrite IH; reflexivity.
Qed.

Lemma purge_saved_series cutoff key l :
  0 <= cutoff < 2 ^ 53 ->
  String.eqb key "diskGrowth" = false ->
  finite_series l -> timestamps_in_range l ->
  purge_property StringToNumber (ofZ cutoff) key
    (JArr (map written (map of_sample l))) =
  Some (JArr (map of_sample
          (unsigned_zeros (filter (fun m => cutoff <=? timestamp m) l)))).
Proof.
  intros Hc Hkey Hv Ht. unfold purge_property. rewrite Hkey. cbn [negb].
  rewrite (written_samples l Hv Ht).
  rewrite (filter_fresh_samples cutoff _ Hc (unsigned_zeros_in_range l Ht)).
  rewrite filter_unsigned_zeros. reflexivity.
Qed.

Lemma eqb_unsigned_zero v :
  is_finite v = true -> SFeqb v (unsigned_zero v) = true.
Proof.
  destruct v as [sv | sv | | sv m e]; try discriminate; intros _.
  - destruct sv; reflexivity.
  - unfold unsigned_zero, SFeqb. cbn [is_zero SFcompare].
    change (Pos.compare_cont Eq m m) with (Pos.compare m m).
    rewrite Z.compare_refl, Pos.compare_refl. destruct sv; reflexivity.
Qed.

Lemma same_samples_unsigned l :
  finite_series l -> Forall2 same_sample l (unsigned_zeros l).
Proof.
  unfold finite_series, unsigned_zeros.
  induction l as [|m l IH]; intro Hv; [constructor|].
  inversion Hv as [|? ? Hm Hl]; subst. cbn [map]. constructor; [|exact (IH Hl)].
  split; [reflexivity | exact (eqb_unsigned_zero _ Hm)].
Qed.

Lemma filter_within now l :
  within_window now l ->
  filter (fun m => now - RETENTION <=? timestamp m) l = l.
Proof.
  unfold within_window. induction l as [|m l IH]; intro H; [reflexivity|].
  inversion H as [|? ? Hm Hl]; subst. cbn [filter].
  replace (now - RETENTION <=? timestamp m) with true
    by (symmetry; apply Z.leb_le; unfold RETENTION; lia).
  rewrite (IH Hl). reflexivity.
Qed.

(** C4. Save and load round trip.  For a store whose sample values and
    growth rate are finite and whose timestamps are time values (in
    [0, 2^53)), loading at time now (with now - 3,600,000 in the same
    range) the text that saveDataToFile wrote yields exactly the saved
    store restricted to the samples with timestamp >= now - 3,600,000,
    in their order, a negative zero being read back as zero; when all
    samples lie within the window, the loaded store has the samples of
    the original one by one, with the same timestamps and numerically
    equal values, and a numerically equal growth rate. *)
Theorem save_load_round_trip s now store0 :
  finite_series (cpu s) -> finite_series (ram s) -> finite_series (disk s) ->
  is_finite (diskGrowth s) = true ->
  timestamps_in_range (cpu s) -> timestamps_in_range (ram s) ->
  timestamps_in_range (disk s) ->
  RETENTION <= now < 2 ^ 53 ->
  loadDataFromFile StringToNumber (Some (saveDataToFile s)) now store0 =
  of_store (restored now s) /\
  (store_within_window now s -> same_store s (restored now s)).
Proof.
  intros Hvc Hvr Hvd Hg Htc Htr Htd Hnow.
  assert (Hc : 0 <= now - RETENTION < 2 ^ 53) by (unfold RETENTION in *; lia).
  split.
  - unfold loadDataFromFile, saveDataToFile, JSON_stringify, JSON_parse.
    unfold of_store at 1. cbn [written map fst snd].
    unfold purge_parsed. cbn [purge_properties].
    rewrite (purge_saved_series _ "cpu" (cpu s) Hc eq_refl Hvc Htc).
    rewrite (purge_saved_series _ "ram" (ram s) Hc eq_refl Hvr Htr).
    rewrite (purge_saved_series _ "disk" (disk s) Hc eq_refl Hvd Htd).
    rewrite Hg. unfold unsigned_zero, restored, of_store.
    cbn [cpu ram disk diskGrowth]. unfold unsigned_zero.
    destruct (is_zero (diskGrowth s)); reflexivity.
  - intros (Hwc & Hwr & Hwd). unfold same_store, restored.
    cbn [cpu ram disk diskGrowth].
    rewrite (filter_within now _ Hwc), (filter_within now _ Hwr),
            (filter_within now _ Hwd).
    repeat split; try (apply same_samples_unsigned; assumption).
    exact (eqb_unsigned_zero _ Hg).
Qed.




End RoundTrip.

Lemma save_load_round_trip_witness :
  let s := {| cpu := [{| timestamp := 1000; value := ofZ 10 |};
                      {| timestamp := 4000000; value := ofZ 20 |}];
              ram := [{| timestamp := 4000000; value := S754_zero true |}];
              disk := [];
              diskGrowth := decimal 5 10 |} in
  loadDataFromFile (fun _ => NaN) (Some (saveDataToFile s)) 4000000
    (of_store default_store)
  = of_store (restored 4000000 s) /\
  same_store s (restored 3601000 s).
Proof.
  intro s. split.
  - apply (save_load_round_trip (fun _ => NaN) s 4000000 (of_store default_store)).
    + repeat constructor.
    + repeat constructor.
    + constructor.
    + reflexivity.
    + repeat constructor; cbn [timestamp]; lia.
    + repeat constructor; cbn [timestamp]; lia.
    + constructor.
    + unfold RETENTION. lia.
  - apply (save_load_round_trip (fun _ => NaN) s 3601000 (of_store default_store)).
    + repeat constructor.
    + repeat constructor.
    + constructor.
    + reflexivity.
    + repeat constructor; cbn [timestamp]; lia.
    + repeat constructor; cbn [timestamp]; lia.
    + constructor.
    + unfold RETENTION. lia.
    + unfold store_within_window, within_window. cbn [cpu ram disk s].
      split; [|split];
        repeat (constructor; [cbn [timestamp]; lia|]); constructor.
Defined.

(** A store inside the window that does not come back: its growth
    rate and the value of its one sample are NaN, which the snapshot
    holds as null, so the loaded store has null where the original has
    numbers. *)
Lemma round_trip_counterexample :
  let s := {| cpu := [{| timestamp := 4000000; value := NaN |}];
              ram := []; disk := []; diskGrowth := NaN |} in
  let loaded :=
    loadDataFromFile (fun _ => NaN) (Some (saveDataToFile s)) 4000000
      (of_store default_store) in
  field "diskGrowth" (of_store s) = Some (JNum NaN) /\
  field "diskGrowth" loaded = Some JNull /\
  field "cpu" (of_store s)
  = Some (JArr [JObj [("timestamp", JNum (ofZ 4000000)); ("value", JNum NaN)]]) /\
  field "cpu" loaded
  = Some (JArr [JObj [("timestamp", JNum (ofZ 4000000)); ("value", JNull)]]).
Proof. vm_compute. repeat split. Qed.


(** ** The repository checker *)

Section GitCheckerProperties.

Variable World : Type.
Variable execAsync : string -> World -> (string + string) * World.
Variable trim : string -> string.

(** Runs a check symbolically: every command either prints or fails,
    every test goes either way. *)
Ltac run_check :=
  unfold checkAndUpdateRepo, execGitCommand;
  repeat (cbn [fst snd world logFile commands lastCheckTime log
               set_lastCheckTime negb orb falsy strict_differ text];
          match goal with
          | |- context [execAsync ?c ?w] =>
              destruct (execAsync c w) as [[? | ?] ?]
          | |- context [String.eqb ?a ?b] => destruct (String.eqb a b) eqn:?
          end);
  cbn [fst snd world logFile commands lastCheckTime log
       set_lastCheckTime negb orb falsy strict_differ text].

Lemma check_skipped now r :
  now - lastCheckTime r < CHECK_INTERVAL_MIN -> checkAndUpdateRepo World execAsync trim now r = (false, r).
Proof.
  intro H. unfold checkAndUpdateRepo.
  apply Z.ltb_lt in H. rewrite H. reflexivity.
Qed.

Lemma check_sets_time now r :
  CHECK_INTERVAL_MIN <= now - lastCheckTime r ->
  lastCheckTime (snd (checkAndUpdateRepo World execAsync trim now r)) = now.
Proof.
  intro H. apply Z.ltb_ge in H.
  unfold checkAndUpdateRepo. rewrite H.
  run_check; reflexivity.
Qed.

(** X10. The check is rate limited, also after a failure: once a
    check has run at time now1 (whatever its outcome, a failed fetch
    included), every check less than five minutes after now1 returns
    false at once, runs no command, logs nothing and leaves the state
    of the checker as it is. *)
Theorem check_rate_limited now1 now2 r :
  CHECK_INTERVAL_MIN <= now1 - lastCheckTime r ->
  now2 - now1 < CHECK_INTERVAL_MIN ->
  checkAndUpdateRepo World execAsync trim now2
    (snd (checkAndUpdateRepo World execAsync trim now1 r)) =
  (false, snd (checkAndUpdateRepo World execAsync trim now1 r)).
Proof.
  intros H1 H2. apply check_skipped.
  rewrite (check_sets_time now1 r H1). exact H2.
Qed.


(** X12. One check appends to the log and never rewrites it, and runs
    at most five commands, the first of which is git remote update. *)
Theorem check_appends now r :
  exists lines cmds,
    logFile (snd (checkAndUpdateRepo World execAsync trim now r)) = (logFile r ++ lines)%list /\
    commands (snd (checkAndUpdateRepo World execAsync trim now r)) = (commands r ++ cmds)%list /\
    (List.length cmds <= 5)%nat /\
    (cmds = [] \/ hd "" cmds = "git remote update").
Proof.
  unfold checkAndUpdateRepo.
  destruct (now - lastCheckTime r <? CHECK_INTERVAL_MIN).
  { exists [], []. rewrite !app_nil_r. cbn [snd List.length].
    split; [reflexivity|]. split; [reflexivity|]. split; [lia|].
    left. reflexivity. }
  run_check; rewrite <- ?app_assoc; cbn [app];
    eexists; eexists;
    (split; [reflexivity|]); (split; [reflexivity|]);
    (split; [cbn; lia | right; reflexivity]).
Qed.

End GitCheckerProperties.

Lemma check_rate_limited_witness :
  let execAsync :=
    fun (_ : string) (w : unit) => (inr "offline" : string + string, w) in
  let r := {| lastCheckTime := 0; logFile := []; commands := []; world := tt |} in
  checkAndUpdateRepo unit execAsync (fun str => str) 300001
    (snd (checkAndUpdateRepo unit execAsync (fun str => str) 300000 r)) =
  (false, snd (checkAndUpdateRepo unit execAsync (fun str => str) 300000 r)).
Proof.
  intros execAsync r. apply check_rate_limited.
  - unfold CHECK_INTERVAL_MIN. cbn [lastCheckTime r]. lia.
  - unfold CHECK_INTERVAL_MIN. lia.
Defined.


(** ** The request handler *)

Section HandlerProperties.

Variable World : Type.
Variable execAsync : string -> World -> (string + string) * World.
Variable trim : string -> string.

(** X13. What a request can change.  A request for any path other
    than /server-monitor is answered with Not Found and changes
    neither the store nor the state of the checker; and a request
    changes the store only if its path is /server-monitor and the
    repository check reported an update. *)
Theorem fetch_changes_store_only_after_pull pathname now sample s r :
  (pathname <> "/server-monitor" ->
   fetch World execAsync trim pathname now sample (s, r) = (NotFound, (s, r))) /\
  (fst (snd (fetch World execAsync trim pathname now sample (s, r))) <> s ->
   pathname = "/server-monitor" /\
   fst (checkAndUpdateRepo World execAsync trim now r) = true).
Proof.
  unfold fetch. split.
  - intro Hp. apply String.eqb_neq in Hp. rewrite Hp. reflexivity.
  - destruct (String.eqb pathname "/server-monitor") eqn:Hp.
    + apply String.eqb_eq in Hp.
      destruct (checkAndUpdateRepo World execAsync trim now r) as [updated r'].
      destruct updated; cbn [fst snd]; intro H; [split; auto|].
      destruct (H eq_refl).
    + cbn [fst snd]. intro H. destruct (H eq_refl).
Qed.

(** X14. A second request is a pure read: after a request for
    /server-monitor at time now1 that ran the repository check, a
    request for /server-monitor less than five minutes after now1 is
    answered with the statistics of the store as it then stands
    (whatever the timer has done to it in between) and changes neither
    the store nor the state of the checker, whatever the samplers
    would read. *)
Theorem second_request_is_read_only now1 now2 sample1 sample2 s s2 r :
  CHECK_INTERVAL_MIN <= now1 - lastCheckTime r ->
  now2 - now1 < CHECK_INTERVAL_MIN ->
  let r1 :=
    snd (snd (fetch World execAsync trim "/server-monitor" now1 sample1 (s, r))) in
  fetch World execAsync trim "/server-monitor" now2 sample2 (s2, r1) =
  (JsonResponse (fst (getStats s2)), (s2, r1)).
Proof.
  intros H1 H2. cbv zeta.
  pose proof (check_sets_time World execAsync trim now1 r H1) as Ht.
  unfold fetch at 2 3. cbn [String.eqb Ascii.eqb Bool.eqb].
  destruct (checkAndUpdateRepo World execAsync trim now1 r) as [updated r1].
  cbn [snd] in Ht. cbn [fst snd].
  unfold fetch. cbn [String.eqb Ascii.eqb Bool.eqb].
  rewrite (check_skipped World execAsync trim now2 r1) by (rewrite Ht; exact H2).
  reflexivity.
Qed.

End HandlerProperties.

Lemma fetch_changes_store_only_after_pull_witness :
  let execAsync :=
    fun (command : string) (w : unit) =>
      (inl (if String.eqb command "git rev-parse HEAD" then "1f3a" else "main")
         : string + string, w) in
  let r := {| lastCheckTime := 0; logFile := []; commands := []; world := tt |} in
  let sample := {| c_now := 300000; c_cpu := ofZ 10; c_ram := ofZ 20;
                   c_disk := ofZ 30; c_diskSizeGB := ofZ 100 |} in
  "/health" <> "/server-monitor" /\
  fetch unit execAsync (fun str => str) "/health" 300000 sample (default_store, r)
  = (NotFound, (default_store, r)) /\
  fst (snd (fetch unit execAsync (fun str => str) "/server-monitor" 300000 sample
              (default_store, r))) <> default_store /\
  fst (checkAndUpdateRepo unit execAsync (fun str => str) 300000 r) = true.
Proof.
  intros execAsync r sample.
  assert (Hp : "/health" <> "/server-monitor") by discriminate.
  assert (Hs : fst (snd (fetch unit execAsync (fun str => str) "/server-monitor"
                           300000 sample (default_store, r))) <> default_store).
  { intro H. apply (f_equal cpu) in H. vm_compute in H. discriminate. }
  split; [exact Hp|]. split.
  - exact (proj1 (fetch_changes_store_only_after_pull unit execAsync
                    (fun str => str) "/health" 300000 sample default_store r) Hp).
  - split; [exact Hs|].
    exact (proj2 (proj2 (fetch_changes_store_only_after_pull unit execAsync
                    (fun str => str) "/server-monitor" 300000 sample
                    default_store r) Hs)).
Defined.

Lemma second_request_is_read_only_witness :
  let execAsync :=
    fun (_ : string) (w : unit) => (inr "offline" : string + string, w) in
  let r := {| lastCheckTime := 0; logFile := []; commands := []; world := tt |} in
  let sample := {| c_now := 300000; c_cpu := ofZ 10; c_ram := ofZ 20;
                   c_disk := ofZ 30; c_diskSizeGB := ofZ 100 |} in
  let s2 := set_cpu default_store [{| timestamp := 300000; value := ofZ 10 |}] in
  let r1 := snd (snd (fetch unit execAsync (fun str => str) "/server-monitor" 300000
                        sample (default_store, r))) in
  fetch unit execAsync (fun str => str) "/server-monitor" 300001 sample (s2, r1) =
  (JsonResponse (fst (getStats s2)), (s2, r1)).
Proof.
  intros execAsync r sample s2.
  apply (second_request_is_read_only unit execAsync (fun str => str)
           300000 300001 sample sample default_store s2 r).
  - unfold CHECK_INTERVAL_MIN. cbn [lastCheckTime r]. lia.
  - unfold CHECK_INTERVAL_MIN. lia.
Defined.

(** ** What a cycle keeps *)



(** ** Growth at the edges *)

Lemma sub_self x : is_finite x = true -> sub x x = pos_zero.
Proof.
  destruct x as [s | s | | s m e]; try discriminate; intros _.
  - destruct s; reflexivity.
  - unfold sub, SFsub. rewrite Z.min_id.
    assert (Hal : shl_align m e e = (m, e)).
    { unfold shl_align. rewrite Z.sub_diag. reflexivity. }
    rewrite Hal. cbn [fst]. rewrite Z.sub_diag. reflexivity.
Qed.

Lemma zero_growth size hours :
  is_finite size = true -> gtb hours pos_zero = true ->
  is_zero (div (mul (div pos_zero (ofZ 100)) size) hours) = true.
Proof.
  intros Hs Hh.
  change (div pos_zero (ofZ 100)) with pos_zero.
  destruct size as [ss | ss | | ss ms es]; try discriminate;
    destruct hours as [sh | sh | | sh mh eh]; try discriminate;
    reflexivity.
Qed.

Lemma formatGrowthGB_zero g : is_zero g = true -> formatGrowthGB g = "±0 GB".
Proof.
  destruct g as [s | s | | s m e]; try discriminate. intros _.
  apply formatGrowthGB_dead_zone. rewrite decimal_0_05. reflexivity.
Qed.

Lemma getStats_growth s :
  d_growth (stats_disk (fst (getStats s))) = formatGrowthGB (diskGrowth s).
Proof. reflexivity. Qed.

(** X16. A steady disk shows no growth: when the disk reading of a
    cycle equals the value of the last disk sample (a finite number),
    time has passed since that sample and the disk size is finite,
    the growth rate the cycle stores is a zero and the statistics
    display it as "±0 GB". *)
Theorem steady_disk_shows_no_growth now cpuNow ramNow diskNow diskSizeGB s lastDisk :
  last_sample (disk s) = Some lastDisk ->
  gtb (elapsedHours now lastDisk) pos_zero = true ->
  value lastDisk = diskNow ->
  is_finite diskNow = true ->
  is_finite diskSizeGB = true ->
  let s' := snd (update now cpuNow ramNow diskNow diskSizeGB s) in
  is_zero (diskGrowth s') = true /\
  d_growth (stats_disk (fst (getStats s'))) = "±0 GB".
Proof.
  intros Hlast Hh Hv Hd Hsize. cbv zeta.
  assert (Hz : is_zero (diskGrowth
                 (snd (update now cpuNow ramNow diskNow diskSizeGB s))) = true).
  { rewrite update_diskGrowth, Hlast, Hh, Hv, (sub_self diskNow Hd).
    exact (zero_growth diskSizeGB _ Hsize Hh). }
  split; [exact Hz|].
  rewrite getStats_growth. exact (formatGrowthGB_zero _ Hz).
Qed.

Lemma nan_growth size hours :
  div (mul (div NaN (ofZ 100)) size) hours = NaN.
Proof.
  change (div NaN (ofZ 100)) with NaN.
  destruct size; destruct hours; reflexivity.
Qed.

Lemma sub_nan x : sub NaN x = NaN.
Proof. destruct x; reflexivity. Qed.

(** X17. A disk reading that is NaN (what parseInt returns for an
    output that does not start with digits) is displayed as such: the
    statistics after the cycle show the current disk usage as "NaN%",
    and when a previous disk sample exists and time has passed since,
    the stored growth rate becomes NaN and is displayed as
    "- NaN GB". *)
Theorem nan_disk_reading_is_displayed now cpuNow ramNow diskSizeGB s :
  let s' := snd (update now cpuNow ramNow NaN diskSizeGB s) in
  d_current (stats_disk (fst (getStats s'))) = "NaN%" /\
  (forall lastDisk,
      last_sample (disk s) = Some lastDisk ->
      gtb (elapsedHours now lastDisk) pos_zero = true ->
      diskGrowth s' = NaN /\
      d_growth (stats_disk (fst (getStats s'))) = "- NaN GB").
Proof.
  cbv zeta. split.
  - assert (Hd := update_disk now cpuNow ramNow NaN diskSizeGB s).
    rewrite filter_keeps_new in Hd by reflexivity.
    unfold getStats, bind, gets, ret.
    cbn [fst snd stats_disk d_current]. rewrite Hd, last_values_snoc.
    reflexivity.
  - intros lastDisk Hlast Hh.
    assert (Hg : diskGrowth (snd (update now cpuNow ramNow NaN diskSizeGB s)) = NaN).
    { rewrite update_diskGrowth, Hlast, Hh, sub_nan. apply nan_growth. }
    split; [exact Hg|].
    rewrite getStats_growth, Hg. vm_compute. reflexivity.
Qed.

Lemma steady_disk_shows_no_growth_witness :
  let s := set_disk default_store [{| timestamp := 0; value := ofZ 40 |}] in
  let s' := snd (update 60000 (ofZ 10) (ofZ 20) (ofZ 40) (ofZ 100) s) in
  is_zero (diskGrowth s') = true /\
  d_growth (stats_disk (fst (getStats s'))) = "±0 GB".
Proof.
  intros s.
  apply (steady_disk_shows_no_growth 60000 (ofZ 10) (ofZ 20) (ofZ 40) (ofZ 100) s
           {| timestamp := 0; value := ofZ 40 |}).
  - reflexivity.
  - vm_compute. reflexivity.
  - reflexivity.
  - vm_compute. reflexivity.
  - vm_compute. reflexivity.
Defined.

Lemma nan_disk_reading_is_displayed_witness :
  let s := set_disk default_store [{| timestamp := 0; value := ofZ 40 |}] in
  let s' := snd (update 60000 (ofZ 10) (ofZ 20) NaN (ofZ 100) s) in
  diskGrowth s' = NaN /\
  d_growth (stats_disk (fst (getStats s'))) = "- NaN GB".
Proof.
  intros s.
  apply (proj2 (nan_disk_reading_is_displayed 60000 (ofZ 10) (ofZ 20) (ofZ 100) s)
           {| timestamp := 0; value := ofZ 40 |}).
  - reflexivity.
  - vm_compute. reflexivity.
Defined.

(** ** The order of numbers and the reported maximum *)

Lemma compare_refl a : is_nan a = false -> SFcompare a a = Some Eq.
Proof.
  destruct a as [s | s | | s m e]; try discriminate; intros _;
    cbn [SFcompare]; try (destruct s; reflexivity).
  change (Pos.compare_cont Eq m m) with (Pos.compare m m).
  rewrite Z.compare_refl, Pos.compare_refl. destruct s; reflexivity.
Qed.

Lemma compare_antisym a b :
  is_nan a = false -> is_nan b = false ->
  exists c, SFcompare a b = Some c /\ SFcompare b a = Some (CompOpp c).
Proof.
  destruct a as [sa | sa | | sa ma ea]; try discriminate;
    destruct b as [sb | sb | | sb mb eb]; try discriminate; intros _ _;
    cbn [SFcompare];
    try (destruct sa; destruct sb; eexists; split; reflexivity);
    try (destruct sa; eexists; split; reflexivity);
    try (destruct sb; eexists; split; reflexivity).
  change (Pos.compare_cont Eq ma mb) with (Pos.compare ma mb).
  change (Pos.compare_cont Eq mb ma) with (Pos.compare mb ma).
  rewrite (Z.compare_antisym ea eb), (Pos.compare_antisym ma mb).
  destruct sa; destruct sb; try (eexists; split; reflexivity);
    destruct (ea ?= eb); cbn [CompOpp];
    try (eexists; split; reflexivity);
    destruct (ma ?= mb)%positive; eexists; split; reflexivity.
Qed.

Lemma leb_refl a : is_nan a = false -> leb a a = true.
Proof. intro H. unfold leb, SFleb. rewrite (compare_refl a H). reflexivity. Qed.

Lemma leb_trans a b c : leb a b = true -> leb b c = true -> leb a c = true.
Proof.
  unfold leb, SFleb.
  destruct a as [sa | sa | | sa ma ea]; destruct b as [sb | sb | | sb mb eb];
    destruct c as [sc | sc | | sc mc ec]; cbn [SFcompare];
    try discriminate; try reflexivity;
    try (destruct sa; destruct sb; destruct sc; (discriminate || reflexivity));
    try (destruct sa; destruct sb; (discriminate || reflexivity));
    try (destruct sa; destruct sc; (discriminate || reflexivity));
    try (destruct sb; destruct sc; (discriminate || reflexivity)).
  change (Pos.compare_cont Eq ma mb) with (Pos.compare ma mb).
  change (Pos.compare_cont Eq mb mc) with (Pos.compare mb mc).
  change (Pos.compare_cont Eq ma mc) with (Pos.compare ma mc).
  destruct sa; destruct sb; destruct sc; try discriminate; try reflexivity;
    destruct (Z.compare_spec ea eb); destruct (Z.compare_spec eb ec);
    destruct (Z.compare_spec ea ec); cbn [CompOpp];
    try discriminate; try reflexivity; try lia;
    destruct (Pos.compare_spec ma mb); destruct (Pos.compare_spec mb mc);
    destruct (Pos.compare_spec ma mc); cbn [CompOpp];
    try discriminate; try reflexivity; lia.
Qed.

Lemma max2_not_nan a b :
  is_nan a = false -> is_nan b = false -> is_nan (max2 a b) = false.
Proof.
  intros Ha Hb. unfold max2. rewrite Ha, Hb. cbn [orb].
  destruct (ltb a b); [exact Hb|]. destruct (ltb b a); [exact Ha|].
  destruct a as [[|] | | |]; assumption.
Qed.

Lemma max2_bounds a b :
  is_nan a = false -> is_nan b = false ->
  leb a (max2 a b) = true /\ leb b (max2 a b) = true /\
  (max2 a b = a \/ max2 a b = b).
Proof.
  intros Ha Hb. unfold max2. rewrite Ha, Hb. cbn [orb].
  destruct (compare_antisym a b Ha Hb) as (c & Hab & Hba).
  unfold ltb, SFltb, leb, SFleb. rewrite Hab, Hba.
  pose proof (compare_refl a Ha) as Haa. pose proof (compare_refl b Hb) as Hbb.
  destruct c; cbn [CompOpp].
  - assert (Hres : forall r, r = a \/ r = b ->
              match SFcompare a r with Some Lt | Some Eq => true | _ => false end = true /\
              match SFcompare b r with Some Lt | Some Eq => true | _ => false end = true).
    { intros r [-> | ->]; rewrite ?Haa, ?Hbb, ?Hab, ?Hba; split; reflexivity. }
    destruct a as [[|] | | |];
      match goal with
      | |- _ /\ _ /\ (?r = _ \/ ?r = _) =>
          assert (Hr : r = r) by reflexivity
      end;
      repeat split; try (apply Hres; auto); auto.
  - rewrite Hab, Hbb. repeat split. right. reflexivity.
  - rewrite Haa, Hba. repeat split. left. reflexivity.
Qed.

Lemma fold_max2_bounds values :
  forall acc,
  is_nan acc = false ->
  Forall (fun v => is_nan v = false) values ->
  let r := fold_left max2 values acc in
  is_nan r = false /\ leb acc r = true /\
  Forall (fun v => leb v r = true) values /\
  (r = acc \/ In r values).
Proof.
  induction values as [|v values IH]; intros acc Hacc Hvals; cbv zeta.
  - cbn [fold_left]. repeat split; auto using leb_refl.
  - inversion Hvals as [|? ? Hv Hrest]; subst. cbn [fold_left].
    destruct (max2_bounds acc v Hacc Hv) as (H1 & H2 & H3).
    destruct (IH (max2 acc v) (max2_not_nan acc v Hacc Hv) Hrest)
      as (Hn & Hle & Hall & Hin).
    split; [exact Hn|]. split; [exact (leb_trans _ _ _ H1 Hle)|].
    split.
    + constructor; [exact (leb_trans _ _ _ H2 Hle) | exact Hall].
    + destruct Hin as [Hin | Hin].
      * rewrite Hin. destruct H3 as [-> | ->]; [left; reflexivity|].
        right. left. reflexivity.
      * right. right. exact Hin.
Qed.

Lemma below_neg_infinity v : leb v neg_infinity = true -> v = neg_infinity.
Proof.
  destruct v as [s | s | | s m e]; cbn; try discriminate;
    destruct s; (discriminate || reflexivity).
Qed.

Lemma max_or_zero_largest series :
  series <> [] ->
  Forall (fun m => is_nan (value m) = false) series ->
  let top := max_or_zero (values_of series) in
  (exists m, In m series /\ value m = top) /\
  Forall (fun m => leb (value m) top = true) series.
Proof.
  intros Hne Hnan. cbv zeta.
  assert (Hvals : Forall (fun v => is_nan v = false) (values_of series)).
  { unfold values_of. apply Forall_map. exact Hnan. }
  destruct (fold_max2_bounds (values_of series) neg_infinity eq_refl Hvals)
    as (_ & _ & Hall & Hin).
  assert (Htop : max_or_zero (values_of series)
                 = fold_left max2 (values_of series) neg_infinity).
  { destruct series; [destruct (Hne eq_refl) | reflexivity]. }
  rewrite Htop. split.
  - assert (Hmem : In (fold_left max2 (values_of series) neg_infinity)
                      (values_of series)).
    { destruct Hin as [Heq | Hin]; [|exact Hin].
      rewrite Heq. rewrite Heq in Hall.
      destruct series as [|m l]; [destruct (Hne eq_refl)|].
      inversion Hall as [|? ? Hm _]; subst.
      left. exact (below_neg_infinity _ Hm). }
    unfold values_of in Hmem. apply in_map_iff in Hmem.
    destruct Hmem as (m & Hm & Hinm). exists m. split; assumption.
  - unfold values_of in Hall. rewrite Forall_map in Hall. exact Hall.
Qed.

(** X18. The reported maximum is the largest sample: for a non-empty
    cpu (or ram) series without NaN values, the maximum that the
    statistics format is the value of one of the samples of the series
    and is at least every sample value. *)
Theorem reported_max_is_largest_sample s :
  (cpu s <> [] ->
   Forall (fun m => is_nan (value m) = false) (cpu s) ->
   exists top,
     u_max (stats_cpu (fst (getStats s))) = formatIntWithPercent top /\
     (exists m, In m (cpu s) /\ value m = top) /\
     Forall (fun m => leb (value m) top = true) (cpu s)) /\
  (ram s <> [] ->
   Forall (fun m => is_nan (value m) = false) (ram s) ->
   exists top,
     u_max (stats_ram (fst (getStats s))) = formatIntWithPercent top /\
     (exists m, In m (ram s) /\ value m = top) /\
     Forall (fun m => leb (value m) top = true) (ram s)).
Proof.
  split; intros Hne Hnan.
  - exists (max_or_zero (values_of (cpu s))). split; [reflexivity|].
    exact (max_or_zero_largest (cpu s) Hne Hnan).
  - exists (max_or_zero (values_of (ram s))). split; [reflexivity|].
    exact (max_or_zero_largest (ram s) Hne Hnan).
Qed.

Lemma reported_max_is_largest_sample_witness :
  let s := set_cpu default_store
             [{| timestamp := 0; value := ofZ 20 |};
              {| timestamp := 60000; value := ofZ 80 |}] in
  exists top,
    u_max (stats_cpu (fst (getStats s))) = formatIntWithPercent top /\
    (exists m, In m (cpu s) /\ value m = top) /\
    Forall (fun m => leb (value m) top = true) (cpu s).
Proof.
  intro s. apply (proj1 (reported_max_is_largest_sample s)).
  - discriminate.
  - repeat constructor.
Defined.

(** ** NaN among the samples *)

Lemma fold_max2_nan values : fold_left max2 values NaN = NaN.
Proof. induction values as [|v values IH]; [reflexivity | exact IH]. Qed.

Lemma max2_nan_r a : max2 a NaN = NaN.
Proof. unfold max2. destruct (is_nan a); reflexivity. Qed.

Lemma fold_max2_poisoned values :
  forall acc, Exists (fun v => is_nan v = true) values ->
  fold_left max2 values acc = NaN.
Proof.
  induction values as [|v values IH]; intros acc H;
    inversion H as [? ? Hv | ? ? Hrest]; subst; cbn [fold_left].
  - destruct v; try discriminate. rewrite max2_nan_r. apply fold_max2_nan.
  - exact (IH _ Hrest).
Qed.

Lemma add_nan_r a : add a NaN = NaN.
Proof. destruct a; reflexivity. Qed.

Lemma fold_add_nan values : fold_left add values NaN = NaN.
Proof. induction values as [|v values IH]; [reflexivity | exact IH]. Qed.

Lemma fold_add_poisoned values :
  forall acc, Exists (fun v => is_nan v = true) values ->
  fold_left add values acc = NaN.
Proof.
  induction values as [|v values IH]; intros acc H;
    inversion H as [? ? Hv | ? ? Hrest]; subst; cbn [fold_left].
  - destruct v; try discriminate. rewrite add_nan_r. apply fold_add_nan.
  - exact (IH _ Hrest).
Qed.

Lemma div_nan_l x : div NaN x = NaN.
Proof. destruct x; reflexivity. Qed.

Lemma poisoned_aggregates series m :
  In m series -> is_nan (value m) = true ->
  formatIntWithPercent (max_or_zero (values_of series)) = "NaN%" /\
  formatIntWithPercent (avg_or_zero (values_of series)) = "NaN%".
Proof.
  intros Hin Hnan.
  assert (Hex : Exists (fun v => is_nan v = true) (values_of series)).
  { apply Exists_exists. exists (value m). split; [|exact Hnan].
    unfold values_of. apply in_map. exact Hin. }
  destruct (values_of series) as [|v values] eqn:Hvals;
    [inversion Hex|].
  unfold max_or_zero, avg_or_zero, Math_max.
  rewrite (fold_max2_poisoned _ _ Hex), (fold_add_poisoned _ _ Hex), div_nan_l.
  split; reflexivity.
Qed.

(** X19. One NaN spoils the statistics of its series: as long as a
    cpu (or ram) sample whose value is NaN is in the store, the
    statistics show both the maximum and the mean of that series as
    "NaN%". *)
Theorem nan_sample_poisons_statistics s :
  (forall m, In m (cpu s) -> is_nan (value m) = true ->
     u_max (stats_cpu (fst (getStats s))) = "NaN%" /\
     u_avg (stats_cpu (fst (getStats s))) = "NaN%") /\
  (forall m, In m (ram s) -> is_nan (value m) = true ->
     u_max (stats_ram (fst (getStats s))) = "NaN%" /\
     u_avg (stats_ram (fst (getStats s))) = "NaN%").
Proof.
  split; intros m Hin Hnan.
  - exact (poisoned_aggregates (cpu s) m Hin Hnan).
  - exact (poisoned_aggregates (ram s) m Hin Hnan).
Qed.

Lemma nan_sample_poisons_statistics_witness :
  let s := set_cpu default_store
             [{| timestamp := 0; value := ofZ 20 |};
              {| timestamp := 60000; value := NaN |};
              {| timestamp := 120000; value := ofZ 30 |}] in
  u_max (stats_cpu (fst (getStats s))) = "NaN%" /\
  u_avg (stats_cpu (fst (getStats s))) = "NaN%".
Proof.
  intro s.
  apply (proj1 (nan_sample_poisons_statistics s)
           {| timestamp := 60000; value := NaN |}).
  - right. left. reflexivity.
  - reflexivity.
Defined.

(** ** The later revision of the checker *)

Section RevisedCheckerProperties.

Variable World : Type.
Variable execAsync : string -> World -> (string + string) * World.
Variable trim : string -> string.

Lemma commands_log message (r : Repo World) :
  commands (log World message r) = commands r.
Proof. reflexivity. Qed.

Lemma commands_set_lastCheckTime (r : Repo World) now :
  commands (set_lastCheckTime World r now) = commands r.
Proof. reflexivity. Qed.

Lemma execGitCommand_commands command r :
  exists out r',
    execGitCommand World execAsync trim command r = (out, r') /\
    commands r' = (commands r ++ [command])%list.
Proof.
  unfold execGitCommand.
  destruct (execAsync command (world r)) as [[stdout | message] w];
    eexists; eexists; split; reflexivity.
Qed.

Lemma forceUpdateDivergentBranch_commands r :
  exists updated r',
    Revised.forceUpdateDivergentBranch World execAsync trim r = (updated, r') /\
    commands r' =
    (commands r ++
     ["git fetch && git reset --hard origin/$(git rev-parse --abbrev-ref HEAD)"])%list.
Proof.
  unfold Revised.forceUpdateDivergentBranch.
  destruct (execAsync _ (world r)) as [[stdout | message] w];
    eexists; eexists; split; reflexivity.
Qed.

(** One step of a check: the next command gives some output and
    extends the trace; the next test goes either way. *)
Ltac check_step :=
  match goal with
  | |- context [execGitCommand World execAsync trim ?c ?r] =>
      let H := fresh "Hran" in
      destruct (execGitCommand_commands c r) as (? & ? & -> & H)
  | |- context [Revised.forceUpdateDivergentBranch World execAsync trim ?r] =>
      let H := fresh "Hran" in
      destruct (forceUpdateDivergentBranch_commands r) as (? & ? & -> & H)
  | |- context [match ?o with Some _ => _ | None => _ end] => destruct o
  | |- context [if ?b then _ else _] => destruct b
  end; cbv beta iota.

(** The trace of a finished check, read off the steps. *)
Ltac read_trace :=
  cbn [fst snd];
  rewrite ?commands_log in *; rewrite ?commands_set_lastCheckTime in *;
  repeat match goal with
         | H : commands ?x = _ |- _ => try rewrite H in *; clear H
         end;
  rewrite <- ?app_assoc; cbn [app].

(** X20. The later revision resets the branch only as a last resort
    and reports an update only after a pull or that reset: one check
    runs at most ten commands; when it runs the fetch-and-reset command
    it has before run, in this order, the remote update, the three
    rev-parse commands, git status --porcelain, a pull, git status -b,
    the pull.rebase setting and a second pull; and when it returns
    true, the last command it ran is git pull or the reset. *)
Theorem reset_is_last_resort now r :
  let reset :=
    "git fetch && git reset --hard origin/$(git rev-parse --abbrev-ref HEAD)" in
  let res := Revised.checkAndUpdateRepo World execAsync trim now r in
  exists cmds,
    commands (snd res) = (commands r ++ cmds)%list /\
    (List.length cmds <= 10)%nat /\
    (In reset cmds ->
     exists branch,
       cmds = ["git remote update"; "git rev-parse HEAD";
               "git rev-parse --abbrev-ref HEAD";
               "git rev-parse origin/" ++ branch;
               "git status --porcelain"; "git pull";
               "git status -b --porcelain=v2";
               "git config pull.rebase false"; "git pull"; reset]) /\
    (fst res = true -> last cmds "" = "git pull" \/ last cmds "" = reset).
Proof.
  cbv zeta. unfold Revised.checkAndUpdateRepo.
  destruct (now - lastCheckTime r <? CHECK_INTERVAL_MIN).
  { exists []. rewrite app_nil_r. cbn [fst snd List.length In].
    split; [reflexivity|]. split; [lia|]. split; [intros []|discriminate]. }
  repeat check_step; read_trace;
    eexists; (split; [reflexivity|]); (split; [cbn [List.length]; lia|]);
    cbn [In last];
    (split;
     [ intro Hin;
       repeat (destruct Hin as [Hin | Hin]; [try discriminate Hin|]);
       try (destruct Hin); eexists; reflexivity
     | intro Htrue; try discriminate Htrue; auto ]).
Qed.

Lemma has_local_changes out :
  out <> "" ->
  negb (falsy (Some out)) &&
  (0 <? Z.of_nat (String.length (text (Some out)))) = true.
Proof.
  intro Hout. destruct out as [|c out]; [destruct (Hout eq_refl)|].
  reflexivity.
Qed.

Lemma status_of_dirty_tree r :
  (forall w, exists out w',
      execAsync "git status --porcelain" w = (inl out, w') /\ trim out <> "") ->
  exists out r',
    execGitCommand World execAsync trim "git status --porcelain" r
    = (Some out, r') /\
    out <> "" /\
    commands r' = (commands r ++ ["git status --porcelain"])%list.
Proof.
  intro Hdirty. unfold execGitCommand.
  destruct (Hdirty (world r)) as (out & w' & -> & Hout).
  eexists; eexists; split; [reflexivity|]. split; [exact Hout | reflexivity].
Qed.

(** X21. The later revision leaves a dirty working tree alone: when
    git status --porcelain reports changes (a non-empty output)
    whenever it is run, a check returns false and runs neither git pull
    nor the fetch-and-reset command. *)
Theorem dirty_tree_is_left_alone now r :
  (forall w, exists out w',
      execAsync "git status --porcelain" w = (inl out, w') /\ trim out <> "") ->
  let res := Revised.checkAndUpdateRepo World execAsync trim now r in
  fst res = false /\
  exists cmds,
    commands (snd res) = (commands r ++ cmds)%list /\
    ~ In "git pull" cmds /\
    ~ In "git fetch && git reset --hard origin/$(git rev-parse --abbrev-ref HEAD)"
         cmds.
Proof.
  intro Hdirty. cbv zeta. unfold Revised.checkAndUpdateRepo.
  destruct (now - lastCheckTime r <? CHECK_INTERVAL_MIN).
  { split; [reflexivity|]. exists []. rewrite app_nil_r.
    split; [reflexivity|]. split; intros []. }
  repeat (match goal with
          | |- context [execGitCommand World execAsync trim
                          "git status --porcelain" ?r0] =>
              let H := fresh "Hran" in
              let Hout := fresh "Hout" in
              destruct (status_of_dirty_tree r0 Hdirty) as (? & ? & -> & Hout & H);
              rewrite (has_local_changes _ Hout); cbv beta iota
          | |- _ => check_step
          end);
    read_trace;
    (split; [reflexivity|]); eexists; (split; [reflexivity|]);
    cbn [In]; split; intro Hin;
    repeat (destruct Hin as [Hin | Hin]; [discriminate Hin|]);
    destruct Hin.
Qed.

End RevisedCheckerProperties.

Lemma dirty_tree_is_left_alone_witness :
  let execAsync :=
    fun (command : string) (w : unit) =>
      (inl (if String.eqb command "git rev-parse HEAD" then "1f3a"
            else if String.eqb command "git status --porcelain" then " M index.ts"
            else "main")
         : string + string, w) in
  let r := {| lastCheckTime := 0; logFile := []; commands := []; world := tt |} in
  let res := Revised.checkAndUpdateRepo unit execAsync (fun str => str) 300000 r in
  fst res = false /\
  exists cmds,
    commands (snd res) = (commands r ++ cmds)%list /\
    ~ In "git pull" cmds /\
    ~ In "git fetch && git reset --hard origin/$(git rev-parse --abbrev-ref HEAD)"
         cmds.
Proof.
  intros execAsync r.
  apply (dirty_tree_is_left_alone unit execAsync (fun str => str) 300000 r).
  intro w. exists " M index.ts", w. split; [reflexivity | discriminate].
Defined.

(** ** The cpu sampler *)

Lemma usages_short cpuInfo :
  forall lastCpuInfo,
  (List.length lastCpuInfo < List.length cpuInfo)%nat ->
  usages cpuInfo lastCpuInfo = None.
Proof.
  induction cpuInfo as [|info rest IH]; intros lastCpuInfo Hlen;
    cbn [List.length] in Hlen; [lia|].
  destruct lastCpuInfo as [|last lastRest]; [reflexivity|].
  cbn [List.length] in Hlen. cbn [usages].
  rewrite (IH lastRest) by lia. reflexivity.
Qed.

Lemma update_with_samplers_short t s lastCpuInfo :
  (List.length lastCpuInfo < List.length (t_cpuInfo t))%nat ->
  update_with_samplers t (s, lastCpuInfo) = (s, lastCpuInfo).
Proof.
  intro Hlen. unfold update_with_samplers, getCpuUsage.
  rewrite (usages_short _ _ Hlen). reflexivity.
Qed.

(** X22. More cpus than at the last successful cycle stall the
    sampling: as long as the operating system reports more cpus than
    lastCpuInfo holds, every call of update throws inside getCpuUsage,
    so a run of such calls leaves the store and lastCpuInfo exactly as
    they were: no sample is recorded and the variable is never
    refreshed. *)
Theorem more_cpus_stall_sampling ticks s lastCpuInfo :
  Forall (fun t => (List.length lastCpuInfo < List.length (t_cpuInfo t))%nat)
         ticks ->
  run_ticks ticks (s, lastCpuInfo) = (s, lastCpuInfo).
Proof.
  unfold run_ticks. induction ticks as [|t ticks IH]; intro H; [reflexivity|].
  inversion H as [|? ? Ht Hrest]; subst. cbn [fold_left].
  rewrite (update_with_samplers_short t s lastCpuInfo Ht).
  exact (IH Hrest).
Qed.

Lemma no_progress x : gtb (sub x x) pos_zero = false.
Proof.
  destruct x as [s | s | | s m e]; try (destruct s; reflexivity);
    try reflexivity.
  rewrite (sub_self (S754_finite s m e) eq_refl). reflexivity.
Qed.

Lemma usages_unchanged cpuInfo :
  usages cpuInfo cpuInfo = Some (repeat pos_zero (List.length cpuInfo)).
Proof.
  induction cpuInfo as [|info rest IH]; [reflexivity|].
  cbn [usages List.length repeat]. rewrite no_progress, IH. reflexivity.
Qed.

Lemma sum_of_zeros n : fold_left add (repeat pos_zero n) pos_zero = pos_zero.
Proof. induction n as [|n IH]; [reflexivity | exact IH]. Qed.

Lemma zero_mean n :
  0 < n < 2 ^ 53 -> div pos_zero (ofZ n) = pos_zero.
Proof.
  intro Hn. destruct n as [|p|p]; try lia.
  destruct (ofZ_pos p) as (m & -> & _); [lia|]. reflexivity.
Qed.

(** X23. Counters that did not move read as no usage: when
    getCpuUsage finds every cpu with the same counters as lastCpuInfo
    (as the first cycle can, which runs right after the variable is
    initialised), the usage it returns is 0, whatever the counters
    are. *)
Theorem unchanged_counters_read_zero cpuInfo :
  cpuInfo <> [] ->
  Z.of_nat (List.length cpuInfo) < 2 ^ 53 ->
  getCpuUsage cpuInfo cpuInfo = (Some pos_zero, cpuInfo).
Proof.
  intros Hne Hlen. unfold getCpuUsage.
  rewrite usages_unchanged, sum_of_zeros, repeat_length.
  rewrite zero_mean; [reflexivity|].
  destruct cpuInfo; [destruct (Hne eq_refl)|]. cbn [List.length] in *. lia.
Qed.

Lemma more_cpus_stall_sampling_witness :
  let one := {| idle := ofZ 100; total := ofZ 400 |} in
  let t := {| t_now := 60000; t_cpuInfo := [one; one]; t_ram := ofZ 20;
              t_disk := ofZ 30; t_diskSizeGB := ofZ 100 |} in
  run_ticks [t; t] (default_store, [one]) = (default_store, [one]).
Proof.
  intros one t.
  apply (more_cpus_stall_sampling [t; t] default_store [one]).
  repeat constructor.
Defined.

Lemma unchanged_counters_read_zero_witness :
  let cpuInfo := [{| idle := ofZ 100; total := ofZ 400 |};
                  {| idle := ofZ 50; total := ofZ 410 |}] in
  getCpuUsage cpuInfo cpuInfo = (Some pos_zero, cpuInfo).
Proof.
  intro cpuInfo. apply (unchanged_counters_read_zero cpuInfo).
  - discriminate.
  - cbn [List.length cpuInfo Z.of_nat]. lia.
Defined.

(** ** Elapsed time and the clock *)

Lemma round_negative m e l :
  negative_or_nan (binary_round_aux prec emax true m e l).
Proof.
  unfold binary_round_aux.
  destruct (shr_fexp prec emax m e l) as [mrs' e'].
  destruct (shr_fexp prec emax _ e' loc_Exact) as [mrs'' e''].
  destruct (shr_m mrs'') as [|p|p]; cbn [negative_or_nan]; try exact I.
  destruct (e'' <=? emax - prec); exact I.
Qed.

Lemma div_negative x my ey :
  negative_or_nan x -> negative_or_nan (div x (S754_finite false my ey)).
Proof.
  destruct x as [[|] | [|] | | [|] mx ex]; cbn [negative_or_nan];
    intro H; try destruct H; try exact I.
  unfold div, SFdiv. cbn [xorb].
  destruct (SFdiv_core_binary prec emax (Zpos mx) ex (Zpos my) ey) as [[mz ez] lz].
  apply round_negative.
Qed.

Lemma negative_not_above_zero x : negative_or_nan x -> gtb x pos_zero = false.
Proof.
  destruct x as [[|] | [|] | | [|] m e]; cbn [negative_or_nan];
    intro H; try destruct H; reflexivity.
Qed.

Lemma ofZ_negative p : negative_or_nan (ofZ (Zneg p)).
Proof.
  unfold ofZ, binary_normalize, binary_round.
  destruct (shl_align p 0 _) as [mz ez]. apply round_negative.
Qed.

(** The quotient of two positive normal numbers is positive. *)
Lemma div_positive mx ex my ey :
  Zpos (digits2_pos mx) = 53 -> Zpos (digits2_pos my) = 53 ->
  -1021 <= ex - ey ->
  gtb (div (S754_finite false mx ex) (S754_finite false my ey)) pos_zero = true.
Proof.
  intros Hdx Hdy He.
  pose proof (digits_bounds mx) as [Xlo Xhi]. rewrite Hdx in Xlo, Xhi.
  pose proof (digits_bounds my) as [Ylo Yhi]. rewrite Hdy in Ylo, Yhi.
  change (2 ^ (53 - 1)) with 4503599627370496 in *.
  change (2 ^ 53) with 9007199254740992 in *.
  unfold div, SFdiv, SFdiv_core_binary. cbn [Zdigits2 xorb].
  rewrite Hdx, Hdy.
  assert (He' : Z.min (fexp prec emax (53 + ex - (53 + ey))) (ex - ey)
                = ex - ey - 53).
  { unfold fexp, SpecFloat.emin, prec, emax. lia. }
  rewrite He'.
  replace (ex - ey - (ex - ey - 53)) with 53 by lia.
  rewrite Z.shiftl_mul_pow2 by lia.
  change (2 ^ 53) with 9007199254740992.
  set (a := Zpos mx * 9007199254740992).
  pose proof (Z_div_mod a (Zpos my)) as Hdm.
  unfold Z.div_eucl at 1 in Hdm. fold (Z.div_eucl a (Zpos my)) in Hdm.
  destruct (Z.div_eucl a (Zpos my)) as [q r].
  destruct Hdm as [Ha Hr]; [lia|].
  assert (Hq : 4503599627370496 <= q).
  { destruct (Z.le_gt_cases 4503599627370496 q) as [H | H]; [exact H|].
    assert (Zpos my * q <= Zpos my * 4503599627370495)
      by (apply Z.mul_le_mono_nonneg_l; lia).
    subst a. lia. }
  destruct q as [|P|P]; try lia.
  assert (HD : 52 < Zpos (digits2_pos P)).
  { apply digits_at_least; [lia|].
    change (2 ^ 52) with 4503599627370496. exact Hq. }
  pose proof (round_normal false P (ex - ey - 53) (new_location (Zpos my) r))
    as Hn.
  cbv zeta in Hn.
  destruct Hn as [Hn | (m' & e' & Hn & _)]; [lia | lia | |];
    rewrite Hn; reflexivity.
Qed.

Lemma hour_in_ms :
  ofZ 3600000 = S754_finite false 7730941132800000 (-31).
Proof. reflexivity. Qed.

Lemma elapsed_sign now ts :
  0 <= ts < 2 ^ 53 -> 0 <= now < 2 ^ 53 ->
  gtb (div (ofZ (now - ts)) (ofZ 3600000)) pos_zero = (ts <? now).
Proof.
  intros Hts Hnow. rewrite hour_in_ms.
  destruct (now - ts) as [|p|p] eqn:Hdiff.
  - replace (ts <? now) with false by (symmetry; apply Z.ltb_ge; lia).
    reflexivity.
  - replace (ts <? now) with true by (symmetry; apply Z.ltb_lt; lia).
    destruct (ofZ_pos p) as (m & -> & _ & Hd); [lia|].
    apply div_positive; [exact Hd | reflexivity |].
    pose proof (digits_bounds p) as [_ _].
    assert (0 < Zpos (digits2_pos p)) by lia. lia.
  - replace (ts <? now) with false by (symmetry; apply Z.ltb_ge; lia).
    apply negative_not_above_zero, div_negative, ofZ_negative.
Qed.

(** X24. The growth rate follows the clock: with time values for the
    clock and the last disk sample (both in [0, 2^53)), a cycle
    recomputes the growth rate exactly when its clock reading is later
    than the timestamp of the last disk sample; when the clock stands
    still or has gone back, the growth rate is left as it was. *)
Theorem growth_follows_the_clock now cpuNow ramNow diskNow diskSizeGB s lastDisk :
  last_sample (disk s) = Some lastDisk ->
  0 <= timestamp lastDisk < 2 ^ 53 ->
  0 <= now < 2 ^ 53 ->
  let s' := snd (update now cpuNow ramNow diskNow diskSizeGB s) in
  (timestamp lastDisk < now ->
   diskGrowth s' =
   div (mul (div (sub diskNow (value lastDisk)) (ofZ 100)) diskSizeGB)
       (elapsedHours now lastDisk)) /\
  (now <= timestamp lastDisk -> diskGrowth s' = diskGrowth s).
Proof.
  intros Hlast Hts Hnow. cbv zeta.
  rewrite update_diskGrowth, Hlast. unfold elapsedHours.
  rewrite (elapsed_sign now (timestamp lastDisk) Hts Hnow).
  split; intro H.
  - apply Z.ltb_lt in H. rewrite H. reflexivity.
  - apply Z.ltb_ge in H. rewrite H. reflexivity.
Qed.

Lemma growth_follows_the_clock_witness :
  let s := set_disk default_store [{| timestamp := 1000; value := ofZ 40 |}] in
  let lastDisk := {| timestamp := 1000; value := ofZ 40 |} in
  diskGrowth (snd (update 61000 (ofZ 10) (ofZ 20) (ofZ 41) (ofZ 100) s)) =
  div (mul (div (sub (ofZ 41) (value lastDisk)) (ofZ 100)) (ofZ 100))
      (elapsedHours 61000 lastDisk) /\
  diskGrowth (snd (update 1000 (ofZ 10) (ofZ 20) (ofZ 41) (ofZ 100) s)) =
  diskGrowth s.
Proof.
  intros s lastDisk. split.
  - apply (proj1 (growth_follows_the_clock 61000 (ofZ 10) (ofZ 20) (ofZ 41)
                    (ofZ 100) s lastDisk eq_refl
                    ltac:(cbn [timestamp lastDisk]; lia) ltac:(lia))).
    cbn [timestamp lastDisk]. lia.
  - apply (proj2 (growth_follows_the_clock 1000 (ofZ 10) (ofZ 20) (ofZ 41)
                    (ofZ 100) s lastDisk eq_refl
                    ltac:(cbn [timestamp lastDisk]; lia) ltac:(lia))).
    cbn [timestamp lastDisk]. lia.
Defined.

(** ** The three series move together *)

Lemma timestamps_of_kept cutoff l :
  map timestamp (filter (fun m => cutoff <=? timestamp m) l) =
  filter (fun t => cutoff <=? t) (map timestamp l).
Proof.
  induction l as [|m l IH]; [reflexivity|].
  cbn [filter map]. destruct (cutoff <=? timestamp m); cbn [map];
    rewrite IH; reflexivity.
Qed.

Lemma timestamps_after_push cutoff l now v :
  map timestamp
    (filter (fun m => cutoff <=? timestamp m)
       (l ++ [{| timestamp := now; value := v |}])%list) =
  filter (fun t => cutoff <=? t) (map timestamp l ++ [now])%list.
Proof. rewrite timestamps_of_kept, map_app. reflexivity. Qed.

Lemma update_aligned now cpuNow ramNow diskNow diskSizeGB s :
  aligned s -> aligned (snd (update now cpuNow ramNow diskNow diskSizeGB s)).
Proof.
  intros [Hr Hd]. unfold aligned.
  rewrite update_cpu, update_ram, update_disk.
  rewrite !timestamps_after_push, <- Hr, <- Hd. split; reflexivity.
Qed.

Lemma run_cycles_aligned cycles :
  forall s, aligned s -> aligned (snd (run_cycles cycles s)).
Proof.
  induction cycles as [|c cycles IH]; intros s Hs; [exact Hs|].
  rewrite run_cycles_cons. apply IH, update_aligned, Hs.
Qed.

Lemma last_shift {A : Type} (l : list A) :
  forall a d, last (a :: l) d = last l a.
Proof.
  induction l as [|b l IH]; intros a d; [reflexivity|].
  change (last (a :: b :: l) d) with (last (b :: l) d).
  rewrite (IH b d), (IH b a). reflexivity.
Qed.

Lemma latest_timestamp_map l :
  latest_timestamp l = last (map timestamp l) 0.
Proof.
  destruct l as [|m l]; [reflexivity|].
  unfold latest_timestamp, last_sample. cbn [map]. rewrite last_shift.
  revert m. induction l as [|m' l IH]; intro m; [reflexivity|].
  cbn [map]. rewrite !last_shift. exact (IH m').
Qed.

(** X25. The three series move together: after any run of cycles from
    the initial store, the cpu, ram and disk series hold samples of
    the same instants in the same order, so the statistics report the
    same count and the same latest timestamp for all three. *)
Theorem series_stay_aligned cycles :
  let s := snd (run_cycles cycles default_store) in
  let stats := fst (getStats s) in
  map timestamp (cpu s) = map timestamp (ram s) /\
  map timestamp (cpu s) = map timestamp (disk s) /\
  u_count (stats_cpu stats) = u_count (stats_ram stats) /\
  u_count (stats_cpu stats) = d_count (stats_disk stats) /\
  u_timestamp (stats_cpu stats) = u_timestamp (stats_ram stats) /\
  u_timestamp (stats_cpu stats) = d_timestamp (stats_disk stats).
Proof.
  cbv zeta.
  destruct (run_cycles_aligned cycles default_store) as [Hr Hd];
    [split; reflexivity|].
  set (s := snd (run_cycles cycles default_store)) in *.
  assert (Hlen : forall a b : list MetricData,
             map timestamp a = map timestamp b ->
             Z.of_nat (List.length a) = Z.of_nat (List.length b)).
  { intros a b H. rewrite <- (length_map timestamp a), <- (length_map timestamp b), H.
    reflexivity. }
  assert (Hlast : forall a b : list MetricData,
             map timestamp a = map timestamp b ->
             latest_timestamp a = latest_timestamp b).
  { intros a b H. rewrite !latest_timestamp_map, H. reflexivity. }
  split; [exact Hr|]. split; [exact Hd|].
  unfold getStats, bind, gets, ret.
  cbn [fst snd stats_cpu stats_ram stats_disk u_count d_count u_timestamp
       d_timestamp].
  repeat split; auto.
Qed.

(** ** The cpu sampler when the number of cpus changes *)




(** ** Whole percentages *)

Lemma whole_percentages_checked :
  forallb (fun k => String.eqb (formatIntWithPercent (ofZ k)) (Z_digits k ++ "%"))
          (map Z.of_nat (seq 0 101)) = true.
Proof. vm_compute. reflexivity. Qed.

(** X27. Whole percentages are displayed as their decimal numerals:
    for every integer k from 0 to 100, formatIntWithPercent of the
    number k is the decimal digits of k followed by the percent sign,
    without a sign, a decimal point or an exponent. *)
Theorem whole_percentages_display k :
  0 <= k <= 100 ->
  formatIntWithPercent (ofZ k) = Z_digits k ++ "%".
Proof.
  intro Hk. apply String.eqb_eq.
  pose proof whole_percentages_checked as Hall.
  rewrite forallb_forall in Hall. apply (Hall k).
  apply in_map_iff. exists (Z.to_nat k). split; [lia|].
  apply in_seq. lia.
Qed.

Lemma whole_percentages_display_witness :
  formatIntWithPercent (ofZ 44) = Z_digits 44 ++ "%".
Proof. apply whole_percentages_display. lia. Defined.

(** ** Rounding twice *)

Lemma binary_round_large s p :
  2 ^ 53 <= Zpos p ->
  binary_round prec emax s p 0 = S754_infinity s \/
  exists m e, binary_round prec emax s p 0 = S754_finite s m e /\ 1 <= e.
Proof.
  intro Hp.
  assert (HD : 53 < Zpos (digits2_pos p)) by (apply digits_at_least; lia).
  unfold binary_round, shl_align.
  assert (Hf : fexp prec emax (Zpos (digits2_pos p) + 0) - 0
               = Zpos (digits2_pos p) - 53).
  { unfold fexp, SpecFloat.emin, prec, emax. lia. }
  rewrite Hf.
  destruct (Zpos (digits2_pos p) - 53) as [|k|k] eqn:Hk; try lia.
  pose proof (round_normal s p 0 loc_Exact) as Hn. cbv zeta in Hn.
  destruct Hn as [Hn | (m & e & Hn & _ & _ & Hcase)]; [lia | lia | |].
  - left. exact Hn.
  - right. exists m, e. split; [exact Hn | lia].
Qed.

Lemma ofZ_signed s p : ofZ (cond_Zopp s (Zpos p)) = binary_round prec emax s p 0.
Proof. destruct s; reflexivity. Qed.

Lemma Math_round_integer s p :
  Math_round (binary_round prec emax s p 0) = binary_round prec emax s p 0.
Proof.
  destruct (Z.lt_ge_cases (Zpos p) (2 ^ 53)) as [Hsmall | Hlarge].
  - destruct (binary_round_small s p Hsmall) as (m & Hr & Hm & _).
    pose proof (digits_at_most p 53 Hsmall) as Hd.
    rewrite Hr. cbn [Math_round].
    destruct (0 <=? Zpos (digits2_pos p) - 53) eqn:He; [reflexivity|].
    apply Z.leb_gt in He.
    replace (- (Zpos (digits2_pos p) - 53)) with (53 - Zpos (digits2_pos p)) by lia.
    set (den := 2 ^ (53 - Zpos (digits2_pos p))) in *.
    assert (Hden : 0 < den) by (apply Z.pow_pos_nonneg; lia).
    assert (Hq : (2 * cond_Zopp s (Zpos m) + den) / (2 * den)
                 = cond_Zopp s (Zpos p)).
    { symmetry. apply (Z.div_unique_pos _ _ _ den); [lia|].
      rewrite Hm. destruct s; cbn [cond_Zopp]; lia. }
    rewrite Hq.
    destruct (cond_Zopp s (Zpos p) =? 0) eqn:Hz.
    + apply Z.eqb_eq in Hz. destruct s; cbn [cond_Zopp] in Hz; lia.
    + rewrite ofZ_signed. exact Hr.
  - destruct (binary_round_large s p Hlarge) as [-> | (m & e & -> & He)];
      [reflexivity|].
    cbn [Math_round].
    replace (0 <=? e) with true by (symmetry; apply Z.leb_le; lia).
    reflexivity.
Qed.

Lemma Math_round_idempotent x : Math_round (Math_round x) = Math_round x.
Proof.
  destruct x as [s | s | | s m e]; try reflexivity.
  cbn [Math_round].
  destruct (0 <=? e) eqn:He.
  - cbn [Math_round]. rewrite He. reflexivity.
  - set (r := (2 * cond_Zopp s (Zpos m) + 2 ^ (- e)) / (2 * 2 ^ (- e))).
    destruct (r =? 0) eqn:Hr; [reflexivity|].
    apply Z.eqb_neq in Hr.
    destruct r as [|p|p]; [destruct (Hr eq_refl) | |].
    + exact (Math_round_integer false p).
    + exact (Math_round_integer true p).
Qed.

Lemma update_published now cpuNow ramNow diskNow diskSizeGB s :
  let s' := snd (update now cpuNow ramNow diskNow diskSizeGB s) in
  fst (fst (update now cpuNow ramNow diskNow diskSizeGB s)) =
  {| m_cpuMax := roundInt (max_or_zero (values_of (cpu s')));
     m_cpuAvg := roundInt (avg_or_zero (values_of (cpu s')));
     m_ramMax := roundInt (max_or_zero (values_of (ram s')));
     m_ramAvg := roundInt (avg_or_zero (values_of (ram s')));
     m_disk := roundInt diskNow;
     m_diskGrowth := roundRawNum (diskGrowth s') |}.
Proof. cbv zeta. run_update. Qed.

(** X28. The published metrics and the displayed statistics agree:
    rounding is idempotent, so the numbers a cycle hands to the PM2
    metrics (already rounded to integers) are displayed by
    formatIntWithPercent as exactly the strings that getStats returns
    right after the cycle, for the cpu and ram maxima and means and for
    the current disk usage. *)
Theorem metrics_agree_with_statistics now cpuNow ramNow diskNow diskSizeGB s :
  let r := update now cpuNow ramNow diskNow diskSizeGB s in
  let published := fst (fst r) in
  let stats := fst (getStats (snd r)) in
  (forall n, roundInt (roundInt n) = roundInt n) /\
  formatIntWithPercent (m_cpuMax published) = u_max (stats_cpu stats) /\
  formatIntWithPercent (m_cpuAvg published) = u_avg (stats_cpu stats) /\
  formatIntWithPercent (m_ramMax published) = u_max (stats_ram stats) /\
  formatIntWithPercent (m_ramAvg published) = u_avg (stats_ram stats) /\
  formatIntWithPercent (m_disk published) = d_current (stats_disk stats).
Proof.
  cbv zeta. split; [exact Math_round_idempotent|].
  assert (Hd := update_disk now cpuNow ramNow diskNow diskSizeGB s).
  rewrite filter_keeps_new in Hd by reflexivity.
  rewrite (update_published now cpuNow ramNow diskNow diskSizeGB s).
  set (s' := snd (update now cpuNow ramNow diskNow diskSizeGB s)) in *.
  cbn [m_cpuMax m_cpuAvg m_ramMax m_ramAvg m_disk].
  unfold getStats, bind, gets, ret.
  cbn [fst snd stats_cpu stats_ram stats_disk u_max u_avg d_current].
  rewrite Hd, last_values_snoc.
  unfold formatIntWithPercent, roundInt.
  rewrite !Math_round_idempotent. repeat split.
Qed.

(** ** The whole cycle, samplers included *)









(** ** The retention window *)



